(** * sample_vpn: a shallow embedding of the VPN automation scripts

    The development follows [vpn_automator.py] (OpenVPN flow with the
    Selenium download stage) and [connect_vpn.py] (the stand-alone
    connector).  Python values are modelled as follows:

    - [str] is [string]; the case and white-space functions act on the
      ASCII range, bytes above 127 are left alone;
    - [os.environ] and the credential files live in [gmap]s;
    - the [dict] used for de-duplication is an association list, because
      Python dictionaries keep insertion order and the code relies on it;
    - exceptions are explicit: a computation yields [Ret] or [Raise];
    - the browser, the download directory, the operator and the child
      process are oracles of a [world]; time is a tick counter in the
      state: every observation of the outside world takes one tick and a
      sleep takes as many ticks as the world's tick rate says. *)

From Stdlib Require Import Ascii ZArith Lia.
From stdpp Require Import base option list gmap strings fin_maps pretty.

#[local] Set Warnings "-clear-no-such-hyp".

Local Open Scope Z_scope.

(** ** Python strings *)

(** [c.lower()] for one ASCII character. *)
Definition py_lower_char (c : ascii) : ascii :=
  let n := nat_of_ascii c in
  if ((65 <=? n)%nat && (n <=? 90)%nat)%bool then ascii_of_nat (n + 32) else c.

(** [s.lower()] *)
Fixpoint py_lower (s : string) : string :=
  match s with
  | EmptyString => EmptyString
  | String c s' => String (py_lower_char c) (py_lower s')
  end.

(** [s.startswith(p)] *)
Fixpoint startswith (s p : string) : bool :=
  match p, s with
  | EmptyString, _ => true
  | String _ _, EmptyString => false
  | String a p', String b s' => if Ascii.eqb a b then startswith s' p' else false
  end.

(** [s.endswith(suf)]: some tail of [s] is [suf]. *)
Fixpoint endswith (s suf : string) : bool :=
  String.eqb s suf ||
  match s with
  | EmptyString => false
  | String _ s' => endswith s' suf
  end.

(** [sub in s] *)
Fixpoint py_in (sub s : string) : bool :=
  startswith s sub ||
  match s with
  | EmptyString => false
  | String _ s' => py_in sub s'
  end.

(** [s.split(sep)[0]] for a one-character separator: the text before the
    first [sep], the whole string when there is none. *)
Fixpoint split_head (sep : ascii) (s : string) : string :=
  match s with
  | EmptyString => EmptyString
  | String c s' => if Ascii.eqb c sep then EmptyString else String c (split_head sep s')
  end.

(** [c.isspace()] on the ASCII range: tab to carriage return, the four
    separators 28..31 and the blank. *)
Definition py_isspace (c : ascii) : bool :=
  let n := nat_of_ascii c in
  (((9 <=? n)%nat && (n <=? 13)%nat) || ((28 <=? n)%nat && (n <=? 32)%nat))%bool.

Fixpoint lstrip (s : string) : string :=
  match s with
  | EmptyString => EmptyString
  | String c s' => if py_isspace c then lstrip s' else s
  end.

Fixpoint rstrip (s : string) : string :=
  match s with
  | EmptyString => EmptyString
  | String c s' =>
      match rstrip s' with
      | EmptyString => if py_isspace c then EmptyString else String c EmptyString
      | r => String c r
      end
  end.

(** [s.strip()] *)
Definition strip (s : string) : string := rstrip (lstrip s).

(** [sep.join(l)] *)
Fixpoint join (sep : string) (l : list string) : string :=
  match l with
  | [] => ""
  | [x] => x
  | x :: rest => x +:+ sep +:+ join sep rest
  end.

(** The line feed. *)
Definition newline : string := String (ascii_of_nat 10) EmptyString.

(** [x or ""] for a value that may be [None]. *)
Definition or_empty (o : option string) : string := default "" o.

(** Python truthiness of a string. *)
Definition truthy (s : string) : bool := negb (String.eqb s "").

Fixpoint drop_chars (n : nat) (s : string) : string :=
  match n, s with
  | O, _ => s
  | S n', String _ s' => drop_chars n' s'
  | S _, EmptyString => EmptyString
  end.

(** ** Exceptions and the effect monad *)

(** [SystemExit] and [KeyboardInterrupt] derive from [BaseException]
    only; every other exception the scripts meet is an [Exception]. *)
Inductive pyexc : Type :=
  | SystemExit (code : Z)
  | KeyboardInterrupt
  | PyException (cls msg : string).

Inductive result (A : Type) : Type :=
  | Ret (a : A)
  | Raise (e : pyexc).
Arguments Ret {A} a.
Arguments Raise {A} e.

(** What the operator does at an [input()] prompt. *)
Inductive input_event : Type :=
  | Line (s : string)
  | CtrlC
  | Eof.

Record file : Type := mkFile {
  f_content : string;
  f_mode : option Z   (* permission bits once [chmod] was called *)
}.

Record state : Type := mkState {
  st_step : nat;                 (* the clock, in ticks *)
  st_stdout : list string;
  st_stderr : list string;
  st_inputs : list input_event;  (* what the operator will still type *)
  st_fs : gmap string file;      (* files written by the scripts *)
  st_launched : list (list string)  (* argument vectors given to Popen *)
}.

Definition M (A : Type) : Type := state -> result A * state.

Definition ret {A} (a : A) : M A := fun st => (Ret a, st).
Definition raise {A} (e : pyexc) : M A := fun st => (Raise e, st).
Definition bind {A B} (m : M A) (k : A -> M B) : M B :=
  fun st =>
    match m st with
    | (Ret a, st') => k a st'
    | (Raise e, st') => (Raise e, st')
    end.

Notation "'let*' x ':=' m 'in' k" := (bind m (fun x => k))
  (at level 10, x name, m at level 100, k at level 200).
Notation "m >>> k" := (bind m (fun _ => k))
  (at level 90, right associativity).

(** [try: body  except Exception as e: handler(e)] *)
Definition try_except {A} (body : M A) (handler : string -> string -> M A) : M A :=
  fun st =>
    match body st with
    | (Raise (PyException cls msg), st') => handler cls msg st'
    | other => other
    end.

(** [try: body  finally: cleanup]; an exception of the cleanup replaces
    the pending one. *)
Definition try_finally {A} (body : M A) (cleanup : M unit) : M A :=
  fun st =>
    match body st with
    | (r, st') =>
        match cleanup st' with
        | (Ret _, st'') => (r, st'')
        | (Raise e, st'') => (Raise e, st'')
        end
    end.

Definition print (line : string) : M unit :=
  fun st => (Ret tt,
             mkState (st_step st) (st_stdout st ++ [line]) (st_stderr st)
                     (st_inputs st) (st_fs st) (st_launched st)).

Definition eprint (line : string) : M unit :=
  fun st => (Ret tt,
             mkState (st_step st) (st_stdout st) (st_stderr st ++ [line])
                     (st_inputs st) (st_fs st) (st_launched st)).

(** [fatal(msg, code=1)] *)
Definition fatal {A} (msg : string) : M A :=
  eprint ("[FATAL] " +:+ msg) >>> raise (SystemExit 1).

Definition info (msg : string) : M unit := print ("[INFO] " +:+ msg).
Definition warn (msg : string) : M unit := print ("[WARN] " +:+ msg).

(** ** LinkDiscoverer: [find_and_click_download] *)

(** An [<a>] element as Selenium shows it.  [a_raises] stands for an
    element whose attribute access raises (a stale element). *)
Record anchor : Type := mkAnchor {
  a_href : option string;
  a_text : option string;
  a_onclick : option string;
  a_raises : bool
}.

Definition suffixes (target_os : string) : list string :=
  if decide (target_os = "windows") then [".exe"; ".msi"]
  else if decide (target_os = "linux") then [".deb"; ".rpm"; ".tar.gz"; ".tar.xz"]
  else [].

Definition keywords (target_os : string) : list string :=
  if decide (target_os = "windows") then ["windows"; "msi"; "exe"; "Windows"]
  else if decide (target_os = "linux") then ["linux"; ".deb"; ".rpm"; "Linux"]
  else [].

(** The longest run of characters other than the apostrophe, [[^']*]. *)
Fixpoint take_unquoted (s : string) : string :=
  match s with
  | EmptyString => EmptyString
  | String c s' => if Ascii.eqb c "'" then EmptyString else String c (take_unquoted s')
  end.

(** [https?://[^']+] anchored at the start of [s]. *)
Definition match_url_here (s : string) : option string :=
  if startswith s "https://" then
    match take_unquoted (drop_chars 8 s) with
    | EmptyString => None
    | body => Some ("https://" +:+ body)
    end
  else if startswith s "http://" then
    match take_unquoted (drop_chars 7 s) with
    | EmptyString => None
    | body => Some ("http://" +:+ body)
    end
  else None.

(** [re.search(r"(https?://[^\']+)", s)], group 1 of the leftmost match. *)
Fixpoint re_search_url (s : string) : option string :=
  match match_url_here s with
  | Some u => Some u
  | None =>
      match s with
      | EmptyString => None
      | String _ s' => re_search_url s'
      end
  end.

(** The value of [href] when the candidate tests are reached. *)
Definition resolve_href (a : anchor) : string :=
  let href := or_empty (a_href a) in
  if truthy href then href
  else
    let onclick := or_empty (a_onclick a) in
    if py_in "http" onclick then
      match re_search_url onclick with
      | Some u => u
      | None => href
      end
    else href.

Definition candidate : Type := string * anchor * string.

Definition cand_href (c : candidate) : string := fst (fst c).

(** One pass of the body of [for a in anchors]: the tuples appended to
    [candidates] for this anchor, one per matching suffix and one per
    matching keyword. *)
Definition anchor_candidates (target_os : string) (a : anchor) : list candidate :=
  if a_raises a then []
  else
    let href := resolve_href a in
    let text := strip (or_empty (a_text a)) in
    if truthy href then
      let lower := py_lower href in
      ((fun _ => (href, a, text)) <$>
         filter (fun suf => endswith lower suf = true) (suffixes target_os))
      ++
      ((fun _ => (href, a, text)) <$>
         filter (fun kw => (py_in (py_lower kw) lower || py_in kw text) = true)
                (keywords target_os))
    else [].

Definition collect_candidates (target_os : string) (anchors : list anchor) : list candidate :=
  anchors ≫= anchor_candidates target_os.

(** [unique.setdefault(key, []).append(v)] on an insertion-ordered dict. *)
Fixpoint setdefault_append (key : string) (v : string * string)
    (d : list (string * list (string * string))) : list (string * list (string * string)) :=
  match d with
  | [] => [(key, [v])]
  | (k, vs) :: d' =>
      if String.eqb k key then (k, vs ++ [v]) :: d'
      else (k, vs) :: setdefault_append key v d'
  end.

(** [key = href.split("#")[0]] *)
Definition fragment_key (href : string) : string := split_head "#" href.

Definition build_unique (cands : list candidate) : list (string * list (string * string)) :=
  fold_left (fun d c => setdefault_append (fragment_key (cand_href c)) (cand_href c, snd c) d)
            cands [].

(** [hrefs = list(unique.keys())] *)
Definition unique_hrefs (cands : list candidate) : list string :=
  fst <$> build_unique cands.

(** The inner [for suf in suffixes...] test of the selection loop. *)
Definition key_has_suffix (target_os : string) (key : string) : bool :=
  existsb (fun suf => endswith (py_lower key) suf) (suffixes target_os).

(** [for key in hrefs: for suf in ...: if key.lower().endswith(suf): ...return] *)
Fixpoint first_suffix_key (target_os : string) (hrefs : list string) : option string :=
  match hrefs with
  | [] => None
  | key :: rest =>
      if key_has_suffix target_os key then Some key
      else first_suffix_key target_os rest
  end.

(** The browser as [find_and_click_download] uses it. *)
Record driver : Type := mkDriver {
  d_get : string -> result unit;          (* driver.get(url) *)
  d_wait_anchors : result unit;           (* wait.until(presence of <a>) *)
  d_anchors : result (list anchor);       (* find_elements(By.TAG_NAME, "a") *)
  d_click_exact : string -> result unit;  (* click //a[@href='chosen'] *)
  d_click_contains : string -> result unit; (* click //a[contains(@href,'chosen')] *)
  d_quit : nat -> result unit;            (* driver.quit() at time n *)
  d_basename : string -> result (option string)
    (* Path(urlparse(chosen).path).name or None *)
}.

Definition lift {A} (r : result A) : M A := fun st => (r, st).

(** The activation cascade after a link was chosen by suffix. *)
Definition activate_suffix (d : driver) (chosen : string) : M unit :=
  try_except (lift (d_click_exact d chosen))
    (fun _ _ =>
       try_except (lift (d_click_contains d chosen))
         (fun _ _ =>
            warn "Could not click download anchor via Selenium script; will attempt to navigate directly to href." >>>
            lift (d_get d chosen))).

(** The activation cascade of the fallback branch. *)
Definition activate_fallback (d : driver) (chosen : string) : M unit :=
  try_except (lift (d_click_exact d chosen))
    (fun _ _ =>
       try_except (lift (d_click_contains d chosen))
         (fun _ _ => lift (d_get d chosen))).

Definition find_and_click_download (d : driver) (cfg_url target_os : string)
    : M (option string * option string) :=
  info ("Navigating to download page: " +:+ cfg_url) >>>
  lift (d_get d cfg_url) >>>
  try_except (lift (d_wait_anchors d))
    (fun _ _ => warn "No anchor tags found on page — the page may be javascript heavy or blocked. Continuing with best-effort parsing.") >>>
  let* anchors := lift (d_anchors d) in
  let candidates := collect_candidates target_os anchors in
  let hrefs := unique_hrefs candidates in
  match hrefs with
  | [] =>
      warn "No obvious installer link found automatically. The website may require manual download or selectors need updating." >>>
      ret (None, None)
  | first :: _ =>
      match first_suffix_key target_os hrefs with
      | Some chosen =>
          info ("Selected download link (by suffix): " +:+ chosen) >>>
          activate_suffix d chosen >>>
          let* name := lift (d_basename d chosen) in
          ret (Some chosen, name)
      | None =>
          let chosen := first in
          info ("Selected download link (fallback): " +:+ chosen) >>>
          activate_fallback d chosen >>>
          let* name := lift (d_basename d chosen) in
          ret (Some chosen, name)
      end
  end.

(** ** The outside world *)

(** How the stream [proc.stdout] ends. *)
Inductive stream_end : Type :=
  | StreamEof
  | StreamInterrupt                 (* the operator presses ctrl-c *)
  | StreamError (cls msg : string).

(** A child process started with [subprocess.Popen]. *)
Record process : Type := mkProcess {
  p_lines : list string;        (* lines read from proc.stdout *)
  p_end : stream_end;
  p_terminate : result unit;    (* proc.terminate() in the interrupt handler *)
  p_wait : result unit;         (* proc.wait(timeout=5) *)
  p_poll_running : bool;        (* proc.poll() is None *)
  p_terminate_finally : result unit
}.

Record world : Type := mkWorld {
  w_environ : gmap string string;  (* os.environ *)
  w_dotenv : gmap string string;   (* the pairs of the .env file *)
  w_platform : string;             (* platform.system() *)
  w_os_name : string;              (* os.name *)
  w_euid : Z;                      (* os.geteuid() *)
  w_importable : string -> bool;   (* does [import name] succeed *)
  w_which : nat -> string -> option string;  (* shutil.which at a time *)
  w_hz : nat;                      (* ticks per second *)
  w_sigint : option nat;           (* the time of an operator interrupt *)
  w_listdir : nat -> list (string * Z);  (* download directory: name, st_size *)
  w_exists : string -> bool;       (* Path.exists() *)
  w_mkdtemp : string -> string;    (* tempfile.mkdtemp(prefix=...) *)
  w_chmod : result unit;           (* authf.chmod(0o600) *)
  w_chrome : result driver;        (* webdriver.Chrome(...) *)
  w_firefox : result driver;       (* webdriver.Firefox(...) *)
  w_popen : list string -> result process;
  w_open_tab : string -> result unit   (* webbrowser.open_new_tab(url) *)
}.

Definition set_step (n : nat) (st : state) : state :=
  mkState n (st_stdout st) (st_stderr st) (st_inputs st) (st_fs st) (st_launched st).

(** Let [k] ticks pass.  A pending operator interrupt that falls into
    the interval is delivered as [KeyboardInterrupt]; otherwise the time
    at which the interval began is returned. *)
Definition observe (w : world) (k : nat) : M nat :=
  fun st =>
    let n := st_step st in
    match w_sigint w with
    | Some t =>
        if ((n <=? t)%nat && (t <? n + k)%nat)%bool
        then (Raise KeyboardInterrupt, set_step (S t) st)
        else (Ret n, set_step (n + k) st)
    | None => (Ret n, set_step (n + k)%nat st)
    end.

(** [time.sleep(0.5)] and [time.sleep(1)] *)
Definition sleep_half (w : world) : M unit := observe w (w_hz w / 2) >>> ret tt.
Definition sleep_one (w : world) : M unit := observe w (w_hz w) >>> ret tt.

(** [time.time()], in ticks. *)
Definition time_now (w : world) : M Z :=
  let* n := observe w 1 in ret (Z.of_nat n).

(** [shutil.which(cmd)] *)
Definition find_executable (w : world) (cmd : string) : M (option string) :=
  let* n := observe w 1 in ret (w_which w n cmd).

(** [input(prompt)] *)
Definition input (prompt : string) : M string :=
  fun st =>
    let st' := mkState (st_step st) (st_stdout st ++ [prompt]) (st_stderr st)
                       (tail (st_inputs st)) (st_fs st) (st_launched st) in
    match st_inputs st with
    | Line s :: _ => (Ret s, st')
    | CtrlC :: _ => (Raise KeyboardInterrupt, st')
    | Eof :: _ | [] => (Raise (PyException "EOFError" "EOF when reading a line"), st')
    end.

(** ** ConfigLoader *)

Definition DEFAULT_DOWNLOAD_TIMEOUT : Z := 120.

(** The digits of a decimal literal; single underscores may separate
    digits.  [prev] tells whether the previous character was a digit. *)
Fixpoint parse_digits (acc : Z) (prev : bool) (s : string) : option Z :=
  match s with
  | EmptyString => if prev then Some acc else None
  | String c s' =>
      match Ascii.is_nat c with
      | Some d => parse_digits (10 * acc + Z.of_nat d) true s'
      | None =>
          if (Ascii.eqb c "_" && prev)%bool then parse_digits acc false s' else None
      end
  end.

(** [int(s)] for a string: [None] stands for [ValueError].  The limit on
    the number of digits of recent interpreters is not modelled. *)
Definition python_int (s : string) : option Z :=
  match strip s with
  | String "+" r => parse_digits 0 false r
  | String "-" r => Z.opp <$> parse_digits 0 false r
  | t => parse_digits 0 false t
  end.

Record config : Type := mkConfig {
  DOWNLOAD_PAGE_URL : string;
  VPN_CONFIG_FILE : string;
  VPN_USERNAME : string;
  VPN_PASSWORD : string;
  BROWSER : option string;
  DOWNLOAD_TIMEOUT : Z
}.

(** [load_dotenv()]: variables already in the environment win. *)
Definition load_dotenv (w : world) : gmap string string := w_environ w ∪ w_dotenv w.

(** [os.getenv(key, dflt)] *)
Definition getenv (env : gmap string string) (key dflt : string) : string :=
  default dflt (env !! key).

Definition load_configuration (w : world) : M config :=
  let env := load_dotenv w in
  let browser := py_lower (strip (getenv env "BROWSER" "")) in
  let timeout :=
    match env !! "DOWNLOAD_TIMEOUT" with
    | Some v => if truthy v then python_int v else Some DEFAULT_DOWNLOAD_TIMEOUT
    | None => Some DEFAULT_DOWNLOAD_TIMEOUT
    end in
  match timeout with
  | Some t =>
      ret (mkConfig (strip (getenv env "DOWNLOAD_PAGE_URL" ""))
                    (strip (getenv env "VPN_CONFIG_FILE" ""))
                    (strip (getenv env "VPN_USERNAME" ""))
                    (strip (getenv env "VPN_PASSWORD" ""))
                    (if truthy browser then Some browser else None)
                    t)
  | None => raise (PyException "ValueError" "invalid literal for int() with base 10")
  end.

(** The list [missing] that [sanity_check_config] builds. *)
Definition missing_keys (cfg : config) : list string :=
  (if truthy (DOWNLOAD_PAGE_URL cfg) then [] else ["DOWNLOAD_PAGE_URL"]) ++
  (if truthy (VPN_CONFIG_FILE cfg) then [] else ["VPN_CONFIG_FILE"]) ++
  (if truthy (VPN_USERNAME cfg) then [] else ["VPN_USERNAME"]) ++
  (if truthy (VPN_PASSWORD cfg) then [] else ["VPN_PASSWORD"]).

Definition sanity_check_config (cfg : config) : M unit :=
  match missing_keys cfg with
  | [] => ret tt
  | missing => fatal ("Missing required environment variables: " +:+ join ", " missing)
  end.

(** ** DownloadWatcher: [wait_for_download_completion] *)

(** A [pathlib.Path] inside a directory. *)
Record path : Type := mkPath { path_dir : string; path_name : string }.

(** [str(p)] *)
Definition path_str (p : path) : string := path_dir p +:+ "/" +:+ path_name p.

Definition default_partial_exts : list string :=
  [".crdownload"; ".part"; ".partial"; ".download"].

(** [list(download_dir.iterdir())] *)
Definition iterdir (w : world) (download_dir : string) : M (list path) :=
  let* n := observe w 1 in ret (map (fun e => mkPath download_dir (fst e)) (w_listdir w n)).

Fixpoint lookup_size (name : string) (entries : list (string * Z)) : option Z :=
  match entries with
  | [] => None
  | (n, sz) :: rest => if String.eqb n name then Some sz else lookup_size name rest
  end.

(** [p.stat().st_size] *)
Definition stat_size (w : world) (p : path) : M Z :=
  let* n := observe w 1 in
  match lookup_size (path_name p) (w_listdir w n) with
  | Some sz => ret sz
  | None => raise (PyException "FileNotFoundError" (path_str p))
  end.

(** [any(str(p).endswith(ext) for ext in partial_exts)] *)
Definition partial_path (partial_exts : list string) (p : path) : bool :=
  existsb (fun ext => endswith (path_str p) ext) partial_exts.

(** [any(p.name.endswith(ext) for ext in partial_exts)] *)
Definition partial_name (partial_exts : list string) (p : path) : bool :=
  existsb (fun ext => endswith (path_name p) ext) partial_exts.

(** The two samples of the stability check; [None] when a [stat] raised. *)
Definition sample_twice (w : world) (p : path) : M (option (Z * Z)) :=
  try_except
    (let* size1 := stat_size w p in
     sleep_half w >>>
     let* size2 := stat_size w p in
     ret (Some (size1, size2)))
    (fun _ _ => ret None).

(** [for p in new: ...], with [completed] as accumulator. *)
Fixpoint scan_new (w : world) (partial_exts : list string) (new completed : list path)
    : M (list path) :=
  match new with
  | [] => ret completed
  | p :: rest =>
      if partial_path partial_exts p then scan_new w partial_exts rest completed
      else
        let* samples := sample_twice w p in
        match samples with
        | None => scan_new w partial_exts rest completed
        | Some (size1, size2) =>
            if ((size1 =? size2) && (0 <? size1))%bool
            then scan_new w partial_exts rest (completed ++ [p])
            else scan_new w partial_exts rest completed
        end
  end.

(** The keys of [completed.sort(key=lambda p: p.stat().st_size, ...)]:
    one [stat] per element, in list order, before anything is moved. *)
Fixpoint sort_keys (w : world) (ps : list path) : M (list (Z * path)) :=
  match ps with
  | [] => ret []
  | p :: rest =>
      let* k := stat_size w p in
      let* ks := sort_keys w rest in
      ret ((k, p) :: ks)
  end.

(** Insertion in front of the first element whose key is not larger:
    elements with equal keys keep their order, as [list.sort] with
    [reverse=True] guarantees. *)
Fixpoint insert_desc (x : Z * path) (l : list (Z * path)) : list (Z * path) :=
  match l with
  | [] => [x]
  | y :: l' => if fst x <? fst y then y :: insert_desc x l' else x :: l
  end.

Definition sort_desc (l : list (Z * path)) : list (Z * path) :=
  foldr insert_desc [] l.

(** [for p in current_files: if p.name in existing: ...] *)
Fixpoint scan_existing (w : world) (partial_exts : list string) (existing : gset string)
    (current_files : list path) : M (option path) :=
  match current_files with
  | [] => ret None
  | p :: rest =>
      if bool_decide (path_name p ∈ existing) then
        if negb (partial_name partial_exts p) then
          let* positive :=
            try_except (let* sz := stat_size w p in ret (0 <? sz))
                       (fun _ _ => ret false) in
          if positive then ret (Some p)
          else scan_existing w partial_exts existing rest
        else scan_existing w partial_exts existing rest
      else scan_existing w partial_exts existing rest
  end.

Definition repr_list (l : list string) : string :=
  "[" +:+ join ", " (map (fun x => "'" +:+ x +:+ "'") l) +:+ "]".

(** What one pass of the [while] body yields: a value to return, or
    nothing, in which case the loop sleeps and goes on. *)
Definition poll_iteration (w : world) (download_dir : string) (partial_exts : list string)
    (existing : gset string) : M (option path) :=
  let* current_files := iterdir w download_dir in
  let new := filter (fun p => path_name p ∉ existing) current_files in
  let* completed := scan_new w partial_exts new [] in
  match completed with
  | _ :: _ =>
      info ("Detected completed download: " +:+ repr_list (map path_str completed)) >>>
      let* keyed := sort_keys w completed in
      match sort_desc keyed with
      | (_, p) :: _ => ret (Some p)
      | [] => raise (PyException "IndexError" "list index out of range")
      end
  | [] => scan_existing w partial_exts existing current_files
  end.

(** The [while time.time() - start < timeout] loop.  [limit] is the
    timeout in ticks.  Every pass takes at least one tick, so [fuel]
    passes are enough when [fuel] exceeds the limit; the last branch
    is the exit of a loop whose time is up. *)
Fixpoint wait_loop (w : world) (download_dir : string) (partial_exts : list string)
    (existing : gset string) (start limit : Z) (fuel : nat) : M (option path) :=
  let* t := time_now w in
  if t - start <? limit then
    match fuel with
    | S fuel' =>
        let* found := poll_iteration w download_dir partial_exts existing in
        match found with
        | Some p => ret (Some p)
        | None =>
            sleep_one w >>>
            wait_loop w download_dir partial_exts existing start limit fuel'
        end
    | O => warn "Timeout waiting for download completion." >>> ret None
    end
  else warn "Timeout waiting for download completion." >>> ret None.

Definition wait_for_download_completion (w : world) (download_dir : string)
    (partial_exts : list string) (timeout : Z) : M (option path) :=
  let* start := time_now w in
  let* listing := iterdir w download_dir in
  let existing : gset string := list_to_set (map path_name listing) in
  info ("Existing files before download: " +:+ repr_list (map path_name listing)) >>>
  let limit := timeout * Z.of_nat (w_hz w) in
  wait_loop w download_dir partial_exts existing start limit (Z.to_nat limit).

(** ** Dependency checks and browser choice *)

Definition check_python_dependencies (w : world) : M unit :=
  let missing :=
    (if w_importable w "selenium" then [] else ["selenium"]) ++
    (if w_importable w "webdriver_manager" then [] else ["webdriver-manager"]) ++
    (if w_importable w "dotenv" then [] else ["python-dotenv"]) in
  match missing with
  | [] => ret tt
  | _ =>
      print "" >>>
      warn ("Missing Python packages: " +:+ join ", " missing) >>>
      print "Please install them manually (example):" >>>
      print "  pip install selenium webdriver-manager python-dotenv" >>>
      fatal "Missing dependencies. Aborting."
  end.

Definition choose_browser_preference (cfg_browser : option string) : M string :=
  match cfg_browser with
  | Some b =>
      if truthy b then
        if bool_decide (b = "chrome" ∨ b = "firefox") then ret b
        else warn ("Unknown BROWSER='" +:+ b +:+ "' in .env — defaulting to auto") >>>
             ret "chrome"
      else ret "chrome"
  | None => ret "chrome"
  end.

Definition prepare_webdriver (w : world) (download_dir prefer_browser : string)
    : M (driver * string) :=
  let firefox : M (driver * string) :=
    let* r :=
      try_except
        (let* d := lift (w_firefox w) in
         info "Using Firefox WebDriver" >>> ret (Some (d, "firefox")))
        (fun _ msg => warn ("Firefox driver init failed: " +:+ msg) >>> ret None) in
    match r with
    | Some dn => ret dn
    | None => fatal "Could not instantiate a Selenium WebDriver. Ensure webdriver-manager can download drivers and you have network access."
    end in
  if String.eqb prefer_browser "chrome" then
    let* r :=
      try_except
        (let* d := lift (w_chrome w) in
         info "Using Chrome WebDriver" >>> ret (Some (d, "chrome")))
        (fun _ msg =>
           warn ("Chrome driver init failed: " +:+ msg +:+ ". Falling back to Firefox.") >>>
           ret None) in
    match r with
    | Some dn => ret dn
    | None => firefox
    end
  else firefox.

(** [driver.quit()] *)
Definition driver_quit (w : world) (d : driver) : M unit :=
  let* n := observe w 1 in lift (d_quit d n).

(** [not href] for an optional string. *)
Definition falsy_opt (o : option string) : bool :=
  match o with
  | Some s => negb (truthy s)
  | None => true
  end.

Definition download_installer (w : world) (cfg : config) : M path :=
  let system := py_lower (w_platform w) in
  let target_os := if startswith system "win" then "windows" else "linux" in
  info ("Detected OS: " +:+ system +:+ " -> target_os=" +:+ target_os) >>>
  let tmp := w_mkdtemp w "vpn_download_" in
  info ("Using temporary download dir: " +:+ tmp) >>>
  let* prefer := choose_browser_preference (BROWSER cfg) in
  let* dn := prepare_webdriver w tmp prefer in
  let d := fst dn in
  try_finally
    (let* hf := find_and_click_download d (DOWNLOAD_PAGE_URL cfg) target_os in
     (if falsy_opt (fst hf) then
        driver_quit w d >>>
        fatal "Could not find a suitable download link on the page. Please download installer manually and place in the same folder as this script or update page selectors."
      else ret tt) >>>
     info "Download initiated, waiting for the file to appear in download folder..." >>>
     let* downloaded :=
       wait_for_download_completion w tmp default_partial_exts (DOWNLOAD_TIMEOUT cfg) in
     driver_quit w d >>>
     match downloaded with
     | None => fatal "Download did not complete within timeout. Please check network, browser prompts, or download page."
     | Some p =>
         info ("Downloaded file located at: " +:+ path_str p) >>> ret p
     end)
    (try_except (driver_quit w d) (fun _ _ => ret tt)).

(** ** Installer handoff *)

(** The tail of [s] that starts at its last dot. *)
Fixpoint last_dot_tail (s : string) : option string :=
  match s with
  | EmptyString => None
  | String c s' =>
      match last_dot_tail s' with
      | Some t => Some t
      | None => if Ascii.eqb c "." then Some s else None
      end
  end.

(** [Path.suffix]: the name from its last dot on, unless that dot is the
    first or the last character. *)
Definition path_suffix (p : path) : string :=
  match path_name p with
  | EmptyString => ""
  | String _ rest =>
      match last_dot_tail rest with
      | Some t => if String.eqb t "." then "" else t
      | None => ""
      end
  end.

(** The Linux branch of the instructions (the quotes that the script
    prints around the path are left out). *)
Definition installer_hint (installer : path) : string :=
  let suffix := path_suffix installer in
  if String.eqb suffix ".deb" then
    "  2) Run: sudo dpkg -i " +:+ path_str installer +:+ " && sudo apt-get -f install -y"
  else if String.eqb suffix ".rpm" then
    "  2) Run: sudo rpm -ivh " +:+ path_str installer
  else if bool_decide (suffix = ".tar.gz" ∨ suffix = ".tar.xz") then
    "  2) Extract and follow included README / install instructions"
  else "  2) Run installer according to your distro's guidelines with root privileges".

(** [while True: choice = input(...) ...]; a pass consumes one operator
    event, so one pass more than there are events is enough: the last
    [input] raises [EOFError]. *)
Fixpoint confirm_loop (fuel : nat) : M unit :=
  let* raw := input "Have you completed installation? (yes/no): " in
  let choice := py_lower (strip raw) in
  if String.eqb choice "yes" then ret tt
  else
    (if bool_decide (choice = "no" ∨ choice = "n")
     then print "Please complete installation and return here when finished."
     else print "Please type 'yes' when installation is complete, or ctrl-c to abort.") >>>
    match fuel with
    | S fuel' => confirm_loop fuel'
    | O => raise (PyException "EOFError" "EOF when reading a line")
    end.

Definition ask_user_to_run_installer (w : world) (installer : path) : M unit :=
  info "ATTENTION: Automated installation of GUI installers is intentionally NOT attempted." >>>
  info "Please run the downloaded installer manually with administrative privileges." >>>
  print "" >>>
  print ("  1) Installer file: " +:+ path_str installer) >>>
  (if startswith (py_lower (w_platform w)) "win" then
     print "  2) Right click -> Run as administrator" >>>
     print "  3) During installation: check 'Add to PATH' or similar if offered (recommended)"
   else print (installer_hint installer)) >>>
  print "" >>>
  print "After you have completed installation, please confirm (type 'yes') so the script will continue to the connection step." >>>
  fun st => confirm_loop (length (st_inputs st)) st.

(** ** VPN connection: [vpn_automator.py] *)

Definition check_openvpn_present (w : world) : M (option string) :=
  let candidates :=
    if startswith (py_lower (w_platform w)) "win" then ["openvpn.exe"; "openvpn"]
    else ["openvpn"] in
  (fix go (cs : list string) : M (option string) :=
     match cs with
     | [] => ret None
     | c :: rest =>
         let* p := find_executable w c in
         match p with
         | Some x => if truthy x then ret (Some x) else go rest
         | None => go rest
         end
     end) candidates.

(** [authf.write_text(text)] *)
Definition write_text (name text : string) : M unit :=
  fun st => (Ret tt,
             mkState (st_step st) (st_stdout st) (st_stderr st) (st_inputs st)
                     (<[name := mkFile text None]> (st_fs st)) (st_launched st)).

(** [authf.chmod(mode)] *)
Definition chmod (w : world) (name : string) (mode : Z) : M unit :=
  lift (w_chmod w) >>>
  fun st => (Ret tt,
             mkState (st_step st) (st_stdout st) (st_stderr st) (st_inputs st)
                     (alter (fun f => mkFile (f_content f) (Some mode)) name (st_fs st))
                     (st_launched st)).

(** [os.remove(name)] *)
Definition os_remove (name : string) : M unit :=
  fun st =>
    match st_fs st !! name with
    | Some _ =>
        (Ret tt,
         mkState (st_step st) (st_stdout st) (st_stderr st) (st_inputs st)
                 (delete name (st_fs st)) (st_launched st))
    | None => (Raise (PyException "FileNotFoundError" name), st)
    end.

(** [os.path.exists(name)] for a file of the scripts' own. *)
Definition own_file_exists (name : string) : M bool :=
  fun st => (Ret (bool_decide (is_Some (st_fs st !! name))), st).

(** [0o600] *)
Definition owner_only : Z := 384.

Definition create_auth_file (w : world) (username password : string) : M string :=
  let parent := w_mkdtemp w "vpn_auth_" in
  let authf := parent +:+ "/" +:+ "openvpn_auth.txt" in
  write_text authf (username +:+ newline +:+ password +:+ newline) >>>
  try_except
    (if String.eqb (w_os_name w) "posix" then chmod w authf owner_only else ret tt)
    (fun _ _ => ret tt) >>>
  ret authf.

(** [subprocess.Popen(cmd, ...)] *)
Definition popen (w : world) (cmd : list string) : M process :=
  fun st =>
    match w_popen w cmd with
    | Ret proc =>
        (Ret proc,
         mkState (st_step st) (st_stdout st) (st_stderr st) (st_inputs st)
                 (st_fs st) (st_launched st ++ [cmd]))
    | Raise e => (Raise e, st)
    end.

(** [for line in proc.stdout: print(line, end="")] *)
Fixpoint stream_lines (lines : list string) (ending : stream_end) : M unit :=
  match lines with
  | line :: rest => print line >>> stream_lines rest ending
  | [] =>
      match ending with
      | StreamEof => ret tt
      | StreamInterrupt => raise KeyboardInterrupt
      | StreamError cls msg => raise (PyException cls msg)
      end
  end.

(** [try ... except KeyboardInterrupt: handler] placed before an
    [except Exception] clause of the same statement. *)
Definition try_except_interrupt {A} (body : M A) (on_interrupt : M A)
    (handler : string -> string -> M A) : M A :=
  fun st =>
    match body st with
    | (Raise KeyboardInterrupt, st') => on_interrupt st'
    | (Raise (PyException cls msg), st') => handler cls msg st'
    | other => other
    end.

Definition connect_vpn (w : world) (cfg : config) : M unit :=
  let* found := check_openvpn_present w in
  let* openvpn_path :=
    match found with
    | Some x => ret x
    | None => fatal "openvpn executable not found in PATH. Ensure installer added openvpn to PATH or run it manually. Aborting."
    end in
  let ovpn := VPN_CONFIG_FILE cfg in
  (if w_exists w ovpn then ret tt
   else fatal ("VPN config file not found: " +:+ ovpn)) >>>
  let* auth_file := create_auth_file w (VPN_USERNAME cfg) (VPN_PASSWORD cfg) in
  let cmd0 := [openvpn_path; "--config"; ovpn; "--auth-user-pass"; auth_file] in
  let cmd :=
    if startswith (py_lower (w_platform w)) "linux" then
      if negb (w_euid w =? 0) then "sudo" :: cmd0 else cmd0
    else cmd0 in
  info "Launching OpenVPN process. You will likely be asked for sudo password (on Linux) or admin rights (on Windows)." >>>
  info ("Command: " +:+ join " " cmd) >>>
  let* proc :=
    try_except (popen w cmd)
      (fun _ msg => fatal ("Failed to start openvpn process: " +:+ msg)) in
  try_finally
    (try_except_interrupt
       (stream_lines (p_lines proc) (p_end proc))
       (warn "User requested termination (KeyboardInterrupt). Terminating OpenVPN process..." >>>
        lift (p_terminate proc) >>>
        lift (p_wait proc))
       (fun _ msg => warn ("Error while reading OpenVPN output: " +:+ msg)))
    ((if p_poll_running proc then
        try_except (lift (p_terminate_finally proc)) (fun _ _ => ret tt)
      else ret tt) >>>
     info "OpenVPN process ended.").

(** ** Orchestration *)

Definition main (w : world) : M unit :=
  check_python_dependencies w >>>
  let* cfg := load_configuration w in
  sanity_check_config cfg >>>
  let* present := check_openvpn_present w in
  (match present with
   | Some _ => info "openvpn found in PATH. Skipping download/installer step."
   | None =>
       let* installer_path :=
         try_except (download_installer w cfg)
           (fun _ msg => fatal ("Download step failed: " +:+ msg)) in
       ask_user_to_run_installer w installer_path >>>
       let* again := check_openvpn_present w in
       (match again with
        | Some _ => ret tt
        | None =>
            warn "openvpn still not found in PATH after you confirmed installation." >>>
            warn "If installer installs OpenVPN but did not add it to PATH, locate openvpn binary and add to PATH or rerun script." >>>
            let* raw := input "Do you want to attempt to continue anyway? (yes/no): " in
            if String.eqb (py_lower (strip raw)) "yes" then ret tt
            else fatal "Aborting as openvpn is not available."
        end) >>>
       info "Proceeding to connection step."
   end) >>>
  try_except (connect_vpn w cfg)
    (fun _ msg => fatal ("Connection step failed: " +:+ msg)).

(** The status with which the interpreter ends a script whose body gave
    [r]: 0 after a normal end, the code of a [SystemExit], 1 after the
    traceback of an exception, 130 when an unhandled [KeyboardInterrupt]
    ends the process through SIGINT. *)
Definition exit_status (r : result unit) : Z :=
  match r with
  | Ret _ => 0
  | Raise (SystemExit c) => c
  | Raise KeyboardInterrupt => 130
  | Raise (PyException _ _) => 1
  end.

(** [if __name__ == "__main__": try: main() except KeyboardInterrupt: ...] *)
Definition entrypoint (w : world) : M unit :=
  fun st =>
    match main w st with
    | (Raise KeyboardInterrupt, st') =>
        (print "" >>> print "[ABORTED] User interrupted." >>> raise (SystemExit 2)) st'
    | other => other
    end.

Definition initial_state (inputs : list input_event) : state :=
  mkState 0 [] [] inputs ∅ [].

(** The exit code of a run of [vpn_automator.py]. *)
Definition run_exit_code (w : world) (inputs : list input_event) : Z :=
  exit_status (fst (entrypoint w (initial_state inputs))).

(** ** The stand-alone connector: [connect_vpn.py] *)

Module ConnectVpnScript.

Definition temp_creds_file_name : string := "temp_creds.txt".

(** [not x] for the result of [os.getenv(key)]. *)
Definition unset (o : option string) : bool := falsy_opt o.

Definition open_browser (w : world) (url : string) : M unit :=
  print ("Opening browser and navigating to " +:+ url +:+ "...") >>>
  try_except (lift (w_open_tab w url))
    (fun _ msg => print ("Error opening browser: " +:+ msg)).

(** [try ... except FileNotFoundError ... except Exception as e ...] *)
Definition try_except_notfound {A} (body : M A) (on_notfound : M A)
    (handler : string -> M A) : M A :=
  try_except body
    (fun cls msg =>
       if String.eqb cls "FileNotFoundError" then on_notfound else handler msg).

Definition connect_vpn (w : world) : M unit :=
  let env := load_dotenv w in
  let vpn_config := env !! "VPN_CONFIG_FILE" in
  let username := env !! "VPN_USERNAME" in
  let password := env !! "VPN_PASSWORD" in
  let startup_url := env !! "STARTUP_URL" in
  if (unset vpn_config || unset username || unset password || unset startup_url)%bool then
    print "Error: Missing required variables in the .env file. Please check VPN_CONFIG_FILE, VPN_USERNAME, VPN_PASSWORD, and STARTUP_URL."
  else
    write_text temp_creds_file_name
      (or_empty username +:+ newline +:+ or_empty password +:+ newline) >>>
    let system := w_platform w in
    let tail_args :=
      ["--config"; or_empty vpn_config; "--auth-user-pass"; temp_creds_file_name] in
    let launch (command : list string) : M unit :=
      print "Attempting to connect to VPN..." >>>
      try_finally
        (try_except_notfound
           (let* proc := popen w command in
            observe w (10 * w_hz w) >>>
            if p_poll_running proc then
              print "VPN connection initiated successfully." >>>
              open_browser w (or_empty startup_url)
            else
              print "VPN connection failed. Please check your configuration and credentials.")
           (print "Error: OpenVPN command not found. Make sure OpenVPN is installed and in your system's PATH.")
           (fun msg => print ("An unexpected error occurred: " +:+ msg)))
        (let* there := own_file_exists temp_creds_file_name in
         if there then os_remove temp_creds_file_name else ret tt) in
    if String.eqb system "Windows" then launch ("openvpn.exe" :: tail_args)
    else if String.eqb system "Linux" then launch ("sudo" :: "openvpn" :: tail_args)
    else
      print ("Unsupported operating system: " +:+ system) >>>
      os_remove temp_creds_file_name.

(** [if __name__ == "__main__": connect_vpn()] *)
Definition entrypoint (w : world) : M unit := connect_vpn w.

Definition run_exit_code (w : world) : Z :=
  exit_status (fst (entrypoint w (initial_state []))).

End ConnectVpnScript.

(** ** The WireGuard flow: [vpn_automator_wireguard.py] *)

Module WireGuard.

(** What [subprocess.run] finds: [run_code] is the return code of a
    command started at a given time, or the exception of a command that
    could not be started; [run_signal n] is how Python prints signal [n]
    in the text of a [CalledProcessError] for a command that a signal
    ended. *)
Record runner : Type := mkRunner {
  run_code : nat -> list string -> result Z;
  run_signal : Z -> string
}.

(** [str(e)] for [e = CalledProcessError(returncode, cmd)] *)
Definition called_process_error (run : runner) (cmd : list string) (returncode : Z)
    : string :=
  if returncode <? 0
  then "Command '" +:+ repr_list cmd +:+ "' died with " +:+ run_signal run (- returncode)
       +:+ "."
  else "Command '" +:+ repr_list cmd +:+ "' returned non-zero exit status "
       +:+ pretty returncode +:+ ".".

(** [subprocess.run(cmd, check=True, shell=shell)]: a command that was
    started is recorded; a return code other than 0 is the
    [CalledProcessError] that [run_command] turns into [fatal]. *)
Definition run_command (w : world) (run : runner) (cmd : list string) (shell : bool)
    : M unit :=
  info (if negb shell then "Running: " +:+ join " " cmd else repr_list cmd) >>>
  let* n := observe w 1 in
  match run_code run n cmd with
  | Ret code =>
      (fun st => (Ret tt,
                  mkState (st_step st) (st_stdout st) (st_stderr st) (st_inputs st)
                          (st_fs st) (st_launched st ++ [cmd]))) >>>
      if code =? 0 then ret tt
      else fatal ("Command failed with exit code " +:+ pretty code +:+ ": "
                  +:+ called_process_error run cmd code)
  | Raise e => raise e
  end.

Record wg_config : Type := mkWgConfig {
  WG_CONFIG_FILE : string;
  WG_INTERFACE_NAME : string
}.

Definition load_configuration (w : world) : M wg_config :=
  let env := load_dotenv w in
  ret (mkWgConfig (strip (getenv env "WG_CONFIG_FILE" ""))
                  (strip (getenv env "WG_INTERFACE_NAME" "wg0"))).

Definition sanity_check_config (cfg : wg_config) : M unit :=
  if truthy (WG_CONFIG_FILE cfg) then ret tt
  else fatal "Missing required env var: WG_CONFIG_FILE".

(** [shutil.which(a) or shutil.which(b) or ...] *)
Fixpoint which_first (w : world) (names : list string) : M (option string) :=
  match names with
  | [] => ret None
  | [name] => find_executable w name
  | name :: rest =>
      let* p := find_executable w name in
      if negb (falsy_opt p) then ret p else which_first w rest
  end.

Definition check_wireguard_present (w : world) : M (option string) :=
  let system := py_lower (w_platform w) in
  if startswith system "win"
  then which_first w ["wireguard.exe"; "wg.exe"; "wg-quick.exe"]
  else which_first w ["wg-quick"; "wg"].

Definition install_wireguard_linux (w : world) (run : runner) : M unit :=
  let* apt := find_executable w "apt-get" in
  if negb (falsy_opt apt) then
    run_command w run ["sudo"; "apt-get"; "update"] false >>>
    run_command w run ["sudo"; "apt-get"; "install"; "-y"; "wireguard"; "wireguard-tools"] false
  else
    let* dnf := find_executable w "dnf" in
    if negb (falsy_opt dnf) then
      run_command w run ["sudo"; "dnf"; "install"; "-y"; "wireguard-tools"] false
    else fatal "Unsupported Linux distro: neither apt-get nor dnf found.".

Definition install_wireguard_windows (w : world) (run : runner) : M unit :=
  let* winget := find_executable w "winget" in
  if negb (falsy_opt winget) then
    run_command w run ["winget"; "install"; "--id"; "WireGuard.WireGuard"; "-e"; "--silent"] true
  else
    let* choco := find_executable w "choco" in
    if negb (falsy_opt choco) then
      run_command w run ["choco"; "install"; "wireguard"; "-y"] true
    else fatal "Neither winget nor choco found. Install WireGuard manually.".

Definition install_wireguard (w : world) (run : runner) : M unit :=
  let system := py_lower (w_platform w) in
  if startswith system "linux" then install_wireguard_linux w run
  else if startswith system "win" then install_wireguard_windows w run
  else if startswith system "darwin" then
    warn "On macOS, please install via Homebrew: brew install wireguard-tools"
  else fatal "Unsupported OS for automatic installation.".

(** The path of the configuration file is the configured string, which
    is what [str(Path(s))] gives for a path that [pathlib] leaves as it
    is written. *)
Definition connect_wireguard (w : world) (run : runner) (cfg : wg_config) : M unit :=
  let wg_conf := WG_CONFIG_FILE cfg in
  (if w_exists w wg_conf then ret tt
   else fatal ("WireGuard config not found: " +:+ wg_conf)) >>>
  let system := py_lower (w_platform w) in
  if (startswith system "linux" || startswith system "darwin")%bool then
    let cmd0 := ["wg-quick"; "up"; wg_conf] in
    let cmd := if negb (w_euid w =? 0) then "sudo" :: cmd0 else cmd0 in
    run_command w run cmd false >>>
    info ("Tunnel is now active. To disconnect: sudo wg-quick down " +:+ wg_conf)
  else if startswith system "win" then
    info "On Windows, WireGuard GUI usually manages tunnels." >>>
    info "Please import your .conf file into the WireGuard app and activate manually." >>>
    input "Press Enter once the tunnel is active to continue..." >>>
    ret tt
  else fatal "Unsupported OS for WireGuard connection.".

Definition main (w : world) (run : runner) : M unit :=
  let* cfg := load_configuration w in
  sanity_check_config cfg >>>
  let* present := check_wireguard_present w in
  (if falsy_opt present then
     info "WireGuard not found, installing..." >>>
     install_wireguard w run >>>
     let* again := check_wireguard_present w in
     if falsy_opt again then fatal "WireGuard installation failed or binary not in PATH."
     else ret tt
   else ret tt) >>>
  connect_wireguard w run cfg.

(** [if __name__ == "__main__": try: main() except KeyboardInterrupt: ...] *)
Definition entrypoint (w : world) (run : runner) : M unit :=
  fun st =>
    match main w run st with
    | (Raise KeyboardInterrupt, st') =>
        (print "" >>> print "[ABORTED]" >>> raise (SystemExit 2)) st'
    | other => other
    end.

Definition run_exit_code (w : world) (run : runner) (inputs : list input_event) : Z :=
  exit_status (fst (entrypoint w run (initial_state inputs))).

End WireGuard.

(** * Vocabulary of the statements *)

(** The text of an anchor as the candidate tests see it. *)
Definition visible_text (a : anchor) : string := strip (or_empty (a_text a)).

Definition matches_suffix (target_os href : string) : Prop :=
  exists suf, suf ∈ suffixes target_os /\ endswith (py_lower href) suf = true.

(** A keyword is looked for in lower case in the lower-cased href and
    as it is written in the text. *)
Definition matches_keyword (target_os href text : string) : Prop :=
  exists kw, kw ∈ keywords target_os /\
    (py_in (py_lower kw) (py_lower href) = true \/ py_in kw text = true).

(** The anchor of the claim as worded: a keyword found in the text
    whatever its case, and no condition on the href being there. *)
Definition claimed_candidate (target_os : string) (a : anchor) : bool :=
  let href := or_empty (a_href a) in
  let text := or_empty (a_text a) in
  existsb (fun suf => endswith (py_lower href) suf) (suffixes target_os) ||
  existsb (fun kw => py_in (py_lower kw) (py_lower href)
                     || py_in (py_lower kw) (py_lower text))
          (keywords target_os).

(** The keys in the order in which each was first seen. *)
Fixpoint first_seen (keys : list string) : list string :=
  match keys with
  | [] => []
  | k :: rest => k :: filter (fun x => x <> k) (first_seen rest)
  end.

Definition candidate_key (c : candidate) : string := fragment_key (cand_href c).

Definition plain_anchor (href text : string) : anchor :=
  mkAnchor (Some href) (Some text) None false.

(** A call that ends normally or with an ordinary exception. *)
Definition ordinary {A} (r : result A) : Prop :=
  match r with
  | Ret _ | Raise (PyException _ _) => True
  | Raise _ => False
  end.

(** A browser on which the selection can run to its end: navigation and
    the listing of anchors work, the basename of a URL can be computed,
    and the waits and clicks fail at most with an ordinary exception. *)
Record usable (d : driver) (anchors : list anchor) : Prop := mkUsable {
  usable_get : forall u, d_get d u = Ret tt;
  usable_wait : ordinary (d_wait_anchors d);
  usable_anchors : d_anchors d = Ret anchors;
  usable_click_exact : forall u, ordinary (d_click_exact d u);
  usable_click_contains : forall u, ordinary (d_click_contains d u);
  usable_basename : forall u, exists n, d_basename d u = Ret n
}.

(** A browser that shows the given anchors and on which every call works. *)
Definition ideal_driver (anchors : list anchor) : driver :=
  mkDriver (fun _ => Ret tt) (Ret tt) (Ret anchors)
           (fun _ => Ret tt) (fun _ => Ret tt) (fun _ => Ret tt)
           (fun _ => Ret None).

(** The keys that [sanity_check_config] requires. *)
Definition required_keys : list string :=
  ["DOWNLOAD_PAGE_URL"; "VPN_CONFIG_FILE"; "VPN_USERNAME"; "VPN_PASSWORD"].

(** A key is missing when the source has no value for it or a value
    that is empty once stripped. *)
Definition blank (env : gmap string string) (key : string) : Prop :=
  strip (getenv env key "") = "".

#[local] Instance blank_dec env key : Decision (blank env key).
Proof. unfold blank. apply _. Defined.

Definition with_stderr (line : string) (st : state) : state :=
  mkState (st_step st) (st_stdout st) (st_stderr st ++ [line])
          (st_inputs st) (st_fs st) (st_launched st).

Definition with_stdout (line : string) (st : state) : state :=
  mkState (st_step st) (st_stdout st ++ [line]) (st_stderr st)
          (st_inputs st) (st_fs st) (st_launched st).

(** The keys that [connect_vpn.py] requires. *)
Definition script_required_keys : list string :=
  ["VPN_CONFIG_FILE"; "VPN_USERNAME"; "VPN_PASSWORD"; "STARTUP_URL"].

(** A machine on which nothing is installed and nothing happens: Linux,
    an ordinary user, ten ticks a second, no browser, no openvpn. *)
Definition quiet_world (environ : gmap string string) : world :=
  mkWorld environ ∅ "Linux" "posix" 1000 (fun _ => true) (fun _ _ => None)
          10 None (fun _ => []) (fun _ => true)
          (fun prefix => "/tmp/" +:+ prefix +:+ "0") (Ret tt)
          (Raise (PyException "WebDriverException" "no browser"))
          (Raise (PyException "WebDriverException" "no browser"))
          (fun _ => Raise (PyException "FileNotFoundError" "openvpn"))
          (fun _ => Ret tt).

Definition value_error : pyexc :=
  PyException "ValueError" "invalid literal for int() with base 10".

(** Every element is at least as large as all that follow it. *)
Fixpoint descending (l : list (Z * path)) : Prop :=
  match l with
  | [] => True
  | x :: rest => (forall y, y ∈ rest -> fst y <= fst x) /\ descending rest
  end.

(** The stability check holds for [p] at some moment: both samples
    could be read, they are equal and positive. *)
Definition passes_stability (w : world) (p : path) : Prop :=
  exists st st' size,
    sample_twice w p st = (Ret (Some (size, size)), st') /\ 0 < size.

(** The quiet machine with a download directory that changes as
    [listing] says. *)
Definition watch_world (listing : nat -> list (string * Z)) : world :=
  mkWorld ∅ ∅ "Linux" "posix" 1000 (fun _ => true) (fun _ _ => None)
          10 None listing (fun _ => true)
          (fun prefix => "/tmp/" +:+ prefix +:+ "0") (Ret tt)
          (Raise (PyException "WebDriverException" "no browser"))
          (Raise (PyException "WebDriverException" "no browser"))
          (fun _ => Raise (PyException "FileNotFoundError" "openvpn"))
          (fun _ => Ret tt).

(** The state in which the first pass of the loop starts to look at
    the files: the clock was read, the snapshot taken and reported, the
    clock read again and the directory listed. *)
Definition first_pass_state (w : world) (download_dir : string) (st : state) : state :=
  snd ((time_now w >>>
        let* listing := iterdir w download_dir in
        info ("Existing files before download: " +:+ repr_list (map path_name listing)) >>>
        time_now w >>>
        iterdir w download_dir) st).

(** A relation between the state before and the state after that
    holds when nothing happened, composes, and holds whenever the error
    stream and the files are as before and the clock did not go back. *)
Class Frame (R : state -> state -> Prop) : Prop := {
  frame_refl : forall st, R st st;
  frame_trans : forall a b c, R a b -> R b c -> R a c;
  frame_out : forall st st',
    st_stderr st' = st_stderr st -> st_fs st' = st_fs st ->
    (st_step st <= st_step st')%nat -> R st st'
}.

(** The relation also holds across a line written to the error stream. *)
Class FrameErr (R : state -> state -> Prop) : Prop :=
  frame_err : forall st line, R st (with_stderr line st).

(** The relation also holds across any change of the files. *)
Class FrameFs (R : state -> state -> Prop) : Prop :=
  frame_fs : forall st fs,
    R st (mkState (st_step st) (st_stdout st) (st_stderr st) (st_inputs st) fs
                  (st_launched st)).

(** [m] keeps [R] between the state it starts in and the one it ends in,
    however it ends. *)
Definition stable (R : state -> state -> Prop) {A} (m : M A) : Prop :=
  forall st, R st (snd (m st)).

(** The three relations that are used below. *)
Definition err_unchanged (a b : state) : Prop := st_stderr b = st_stderr a.
Definition fs_unchanged (a b : state) : Prop := st_fs b = st_fs a.
Definition clock_advances (a b : state) : Prop := (st_step a <= st_step b)%nat.

(** A computation that does not write to the error stream. *)
Abbreviation silent := (stable err_unchanged).

(** Either nothing was written to the error stream, or [fatal] was
    called once and its [SystemExit] is on its way out. *)
Definition clean {A} (m : M A) : Prop :=
  forall st,
    st_stderr (snd (m st)) = st_stderr st \/
    (fst (m st) = Raise (SystemExit 1) /\
     exists msg, st_stderr (snd (m st)) = st_stderr st ++ ["[FATAL] " +:+ msg]).

(** A cleanup that always ends normally and writes no error. *)
Definition harmless (m : M unit) : Prop :=
  forall st, fst (m st) = Ret tt /\ st_stderr (snd (m st)) = st_stderr st.

(** No operator interrupt arrives through the clock, and closing a
    browser of this machine fails at most with an ordinary exception. *)
Definition undisturbed (w : world) : Prop :=
  w_sigint w = None /\
  forall d n, w_chrome w = Ret d \/ w_firefox w = Ret d -> ordinary (d_quit d n).

Definition full_env : gmap string string :=
  {[ "DOWNLOAD_PAGE_URL" := "http://x/dl"; "VPN_CONFIG_FILE" := "client.ovpn";
     "VPN_USERNAME" := "alice"; "VPN_PASSWORD" := "secret";
     "STARTUP_URL" := "http://intranet/" ]}.

(** A Linux machine with openvpn installed, a complete configuration
    and an OpenVPN process that behaves as [proc] says. *)
Definition vpn_world (sigint : option nat) (proc : process) : world :=
  mkWorld full_env ∅ "Linux" "posix" 1000 (fun _ => true)
          (fun _ cmd => if String.eqb cmd "openvpn" then Some "/usr/sbin/openvpn" else None)
          10 sigint (fun _ => []) (fun _ => true)
          (fun prefix => "/tmp/" +:+ prefix +:+ "0") (Ret tt)
          (Raise (PyException "WebDriverException" "no browser"))
          (Raise (PyException "WebDriverException" "no browser"))
          (fun _ => Ret proc)
          (fun _ => Ret tt).

(** The tunnel comes up and the process ends by itself. *)
Definition proc_exited : process :=
  mkProcess ["Initialization Sequence Completed"; "SIGTERM received"]
            StreamEof (Ret tt) (Ret tt) false (Ret tt).

(** The tunnel comes up and the operator presses ctrl-c. *)
Definition proc_interrupted : process :=
  mkProcess ["Initialization Sequence Completed"]
            StreamInterrupt (Ret tt) (Ret tt) false (Ret tt).

Definition env_without_username : gmap string string :=
  {[ "DOWNLOAD_PAGE_URL" := "http://x/dl"; "VPN_CONFIG_FILE" := "client.ovpn";
     "VPN_PASSWORD" := "secret"; "STARTUP_URL" := "http://intranet/" ]}.

(** [m] leaves the part [f] of the state as it was, however it ends. *)
Definition keeps {X} (f : state -> X) {A} (m : M A) : Prop :=
  forall st, f (snd (m st)) = f st.

(** [s.split(sep)] for a one-character separator. *)
Fixpoint split_on (sep : ascii) (s : string) : list string :=
  match s with
  | EmptyString => [EmptyString]
  | String c s' =>
      if Ascii.eqb c sep then EmptyString :: split_on sep s'
      else
        match split_on sep s' with
        | piece :: pieces => String c piece :: pieces
        | [] => [String c EmptyString]
        end
  end.

(** The character does not occur in the string. *)
Fixpoint free_of (c : ascii) (s : string) : bool :=
  match s with
  | EmptyString => true
  | String x s' => negb (Ascii.eqb x c) && free_of c s'
  end.

(** The command line that [connect_vpn] of [vpn_automator.py] builds. *)
Definition openvpn_command (w : world) (cfg : config) (openvpn_path : string)
    : list string :=
  (if (startswith (py_lower (w_platform w)) "linux" && negb (w_euid w =? 0))%bool
   then ["sudo"] else []) ++
  [openvpn_path; "--config"; VPN_CONFIG_FILE cfg; "--auth-user-pass";
   w_mkdtemp w "vpn_auth_" +:+ "/" +:+ "openvpn_auth.txt"].

(** The commands of the WireGuard flow. *)
Definition apt_update : list string := ["sudo"; "apt-get"; "update"].
Definition apt_install : list string :=
  ["sudo"; "apt-get"; "install"; "-y"; "wireguard"; "wireguard-tools"].
Definition dnf_install : list string :=
  ["sudo"; "dnf"; "install"; "-y"; "wireguard-tools"].

Definition wg_quick_up (w : world) (conf : string) : list string :=
  (if w_euid w =? 0 then [] else ["sudo"]) ++ ["wg-quick"; "up"; conf].

Definition winget_install : list string :=
  ["winget"; "install"; "--id"; "WireGuard.WireGuard"; "-e"; "--silent"].
Definition choco_install : list string := ["choco"; "install"; "wireguard"; "-y"].

(** The package-manager commands of the installation stage. *)
Definition package_commands : list (list string) :=
  [apt_update; apt_install; dnf_install; winget_install; choco_install].

(** The programs that [check_wireguard_present] looks for. *)
Definition wireguard_binaries : list string :=
  ["wireguard.exe"; "wg.exe"; "wg-quick.exe"; "wg-quick"; "wg"].

(** [m] starts commands of [cmds] only, however it ends. *)
Definition starts_only {A} (cmds : list (list string)) (m : M A) : Prop :=
  forall st, exists started,
    st_launched (snd (m st)) = st_launched st ++ started /\
    forall c, c ∈ started -> c ∈ cmds.

(** [m] never returns, starts no process and leaves the files alone. *)
Definition stops_short {A} (m : M A) : Prop :=
  forall st,
    (exists e, fst (m st) = Raise e) /\
    st_launched (snd (m st)) = st_launched st /\
    st_fs (snd (m st)) = st_fs st.

(** A machine of the given platform with the listed programs on PATH
    and [WG_CONFIG_FILE=wg0.conf] in the environment. *)
Definition wg_world (system : string) (programs : list string) : world :=
  mkWorld {[ "WG_CONFIG_FILE" := "wg0.conf" ]} ∅ system "posix" 1000 (fun _ => true)
          (fun _ cmd => if bool_decide (cmd ∈ programs) then Some ("/usr/bin/" +:+ cmd)
                        else None)
          10 None (fun _ => []) (fun _ => true)
          (fun prefix => "/tmp/" +:+ prefix +:+ "0") (Ret tt)
          (Raise (PyException "WebDriverException" "no browser"))
          (Raise (PyException "WebDriverException" "no browser"))
          (fun _ => Raise (PyException "FileNotFoundError" "openvpn"))
          (fun _ => Ret tt).

(** Every command succeeds. *)
Definition runner_ok : WireGuard.runner :=
  WireGuard.mkRunner (fun _ _ => Ret 0) (fun n => "unknown signal " +:+ pretty n).

(** A file in the watched directory, with a name without partial-file
    suffix, that was seen there with a size above zero. *)
Definition complete_file (w : world) (dir : string) (exts : list string) (p : path)
    : Prop :=
  path_dir p = dir /\ partial_name exts p = false /\
  exists n size, lookup_size (path_name p) (w_listdir w n) = Some size /\ 0 < size.

(** In a directory that holds [entries], the file [q] passes the
    stability check: no partial-file suffix and a size above zero. *)
Definition settled (exts : list string) (entries : list (string * Z)) (q : path) : bool :=
  negb (partial_path exts q) &&
  match lookup_size (path_name q) entries with
  | Some size => 0 <? size
  | None => false
  end.

(** * Properties *)

(** ** Strings *)

Lemma string_eqb_true (a b : string) : String.eqb a b = true <-> a = b.
Proof. apply String.eqb_eq. Qed.

Lemma endswith_spec (s suf : string) :
  endswith s suf = true <-> exists p, s = p +:+ suf.
Proof.
  induction s as [|c s IH].
  - change (endswith "" suf) with (String.eqb "" suf || false).
    rewrite orb_false_r, String.eqb_eq. split.
    + intros <-. by exists "".
    + intros [p Hp]. destruct p; simpl in Hp; [done | discriminate].
  - change (endswith (String c s) suf)
      with (String.eqb (String c s) suf || endswith s suf).
    rewrite orb_true_iff, String.eqb_eq, IH. split.
    + intros [<- | [p ->]]; [by exists "" | by exists (String c p)].
    + intros [[|c' p] Hp]; simpl in Hp.
      * by left.
      * right. exists p. by inversion Hp.
Qed.

Lemma split_head_fragment (h f : string) :
  split_head "#" (h +:+ "#" +:+ f) = split_head "#" h.
Proof.
  induction h as [|c h IH]; simpl; [done |].
  destruct (Ascii.eqb c "#"); [done | by rewrite IH].
Qed.

Lemma truthy_true (s : string) : truthy s = true <-> s <> "".
Proof.
  unfold truthy. rewrite negb_true_iff. split.
  - intros H ->. discriminate.
  - intros H. apply String.eqb_neq. done.
Qed.

Lemma truthy_false (s : string) : truthy s = false <-> s = "".
Proof. unfold truthy. rewrite negb_false_iff. apply String.eqb_eq. Qed.

(** ** LinkDiscoverer *)

Lemma anchor_candidates_spec (target_os : string) (a : anchor) (c : candidate) :
  c ∈ anchor_candidates target_os a <->
  a_raises a = false /\ c = (resolve_href a, a, visible_text a) /\
  resolve_href a <> "" /\
  (matches_suffix target_os (resolve_href a) \/
   matches_keyword target_os (resolve_href a) (visible_text a)).
Proof.
  unfold anchor_candidates, matches_suffix, matches_keyword, visible_text.
  destruct (a_raises a); [split; [by intros ?%elem_of_nil | by intros [? _]] |].
  destruct (truthy (resolve_href a)) eqn:Ht.
  - apply truthy_true in Ht.
    rewrite elem_of_app, !list_elem_of_fmap.
    setoid_rewrite list_elem_of_filter. setoid_rewrite orb_true_iff.
    split.
    + intros [(suf & -> & Hs & Hin) | (kw & -> & Hk & Hin)];
        (repeat split; [done |]); [left | right]; eauto.
    + intros (_ & -> & _ & [(suf & Hin & Hs) | (kw & Hin & Hk)]);
        [left | right]; eauto.
  - apply truthy_false in Ht.
    split; [by intros ?%elem_of_nil | by intros (_ & _ & Hne & _)].
Qed.

Lemma collect_candidates_spec (target_os : string) (anchors : list anchor) (c : candidate) :
  c ∈ collect_candidates target_os anchors <->
  exists a, a ∈ anchors /\ c ∈ anchor_candidates target_os a.
Proof.
  unfold collect_candidates. rewrite list_elem_of_bind.
  split; intros (a & H1 & H2); exists a; done.
Qed.



(** *** De-duplication *)

Lemma setdefault_append_keys key v d :
  (setdefault_append key v d).*1 =
  if bool_decide (key ∈ d.*1) then d.*1 else d.*1 ++ [key].
Proof.
  induction d as [|[k vs] d IH]; [done |].
  cbn [setdefault_append]. destruct (String.eqb k key) eqn:E.
  - apply String.eqb_eq in E as ->. rewrite !fmap_cons. cbn [fst].
    rewrite bool_decide_eq_true_2; [done | left].
  - apply String.eqb_neq in E. rewrite !fmap_cons. cbn [fst]. rewrite IH.
    destruct (bool_decide (key ∈ d.*1)) eqn:B.
    + apply bool_decide_eq_true in B.
      rewrite bool_decide_eq_true_2; [done | by right].
    + apply bool_decide_eq_false in B.
      rewrite bool_decide_eq_false_2; [done |].
      intros [?|?]%elem_of_cons; congruence.
Qed.

Lemma unique_hrefs_snoc cands c :
  unique_hrefs (cands ++ [c]) =
  if bool_decide (candidate_key c ∈ unique_hrefs cands) then unique_hrefs cands
  else unique_hrefs cands ++ [candidate_key c].
Proof.
  unfold unique_hrefs, build_unique. rewrite fold_left_app. simpl.
  apply setdefault_append_keys.
Qed.

Lemma first_seen_elem k keys : k ∈ first_seen keys <-> k ∈ keys.
Proof.
  induction keys as [|k0 keys IH]; simpl; [done |].
  rewrite !elem_of_cons, list_elem_of_filter, IH.
  destruct (decide (k = k0)); naive_solver.
Qed.

Lemma first_seen_snoc keys k :
  first_seen (keys ++ [k]) =
  if bool_decide (k ∈ first_seen keys) then first_seen keys else first_seen keys ++ [k].
Proof.
  induction keys as [|k0 keys IH].
  - cbn [first_seen app]. rewrite filter_nil.
    rewrite bool_decide_eq_false_2; [done | apply not_elem_of_nil].
  - cbn [first_seen app]. rewrite IH. destruct (decide (k = k0)) as [->|Hne].
    + rewrite (bool_decide_eq_true_2 (k0 ∈ k0 :: _)); [| left].
      destruct (bool_decide (k0 ∈ first_seen keys)); [done |].
      rewrite filter_app, filter_cons_False, filter_nil, app_nil_r; [done | tauto].
    + destruct (bool_decide (k ∈ first_seen keys)) eqn:B.
      * apply bool_decide_eq_true in B.
        rewrite bool_decide_eq_true_2; [done |].
        right. apply list_elem_of_filter. done.
      * apply bool_decide_eq_false in B.
        rewrite bool_decide_eq_false_2.
        -- rewrite filter_app, filter_cons_True, filter_nil; done.
        -- intros [?|[_ ?]%list_elem_of_filter]%elem_of_cons; congruence.
Qed.

Lemma unique_hrefs_first_seen cands :
  unique_hrefs cands = first_seen (candidate_key <$> cands).
Proof.
  induction cands as [|c cands IH] using rev_ind; [done |].
  rewrite unique_hrefs_snoc, fmap_app.
  change (candidate_key <$> [c]) with [candidate_key c].
  rewrite first_seen_snoc, IH. done.
Qed.

Lemma unique_hrefs_elem cands k :
  k ∈ unique_hrefs cands <-> exists c, c ∈ cands /\ candidate_key c = k.
Proof.
  rewrite unique_hrefs_first_seen, first_seen_elem, list_elem_of_fmap.
  naive_solver.
Qed.

Lemma unique_hrefs_NoDup cands : NoDup (unique_hrefs cands).
Proof.
  induction cands as [|c cands IH] using rev_ind; [constructor |].
  rewrite unique_hrefs_snoc. case_bool_decide as Hin; [done |].
  apply NoDup_app. split_and!; [done | | apply NoDup_singleton].
  intros x Hx ->%list_elem_of_singleton. done.
Qed.

Lemma NoDup_occurs_once (k : string) (l : list string) :
  NoDup l -> k ∈ l -> length (filter (fun x => x = k) l) = 1%nat.
Proof.
  induction 1 as [|x l Hx Hnd IH]; [by intros ?%elem_of_nil |].
  intros [->|Hin]%elem_of_cons.
  - rewrite filter_cons_True by done. simpl. f_equal.
    clear IH Hnd. induction l as [|y l IHl]; [done |].
    rewrite filter_cons_False.
    + apply IHl. intros ?. apply Hx. by right.
    + intros ->. apply Hx. left.
  - rewrite filter_cons_False; [by apply IH |].
    intros ->. done.
Qed.

Lemma fragment_key_strips (h frag : string) :
  fragment_key (h +:+ "#" +:+ frag) = fragment_key h.
Proof. apply split_head_fragment. Qed.



(** *** Selection *)

Lemma first_suffix_key_first target_os pre k post :
  (forall x, x ∈ pre -> key_has_suffix target_os x = false) ->
  key_has_suffix target_os k = true ->
  first_suffix_key target_os (pre ++ k :: post) = Some k.
Proof.
  intros Hpre Hk. induction pre as [|x pre IH]; simpl.
  - by rewrite Hk.
  - rewrite (Hpre x) by left. apply IH. intros y Hy. apply Hpre. by right.
Qed.

Lemma first_suffix_key_none target_os hrefs :
  (forall x, x ∈ hrefs -> key_has_suffix target_os x = false) ->
  first_suffix_key target_os hrefs = None.
Proof.
  intros H. induction hrefs as [|x l IH]; simpl; [done |].
  rewrite (H x) by left. apply IH. intros y Hy. apply H. by right.
Qed.

Lemma activate_suffix_returns d anchors chosen st :
  usable d anchors -> exists st', activate_suffix d chosen st = (Ret tt, st').
Proof.
  intros U. unfold activate_suffix, try_except, lift, bind, warn, print.
  pose proof (usable_click_exact d anchors U chosen) as H1.
  pose proof (usable_click_contains d anchors U chosen) as H2.
  destruct (d_click_exact d chosen) as [[]|[]]; simpl in *; try done; eauto.
  destruct (d_click_contains d chosen) as [[]|[]]; simpl in *; try done; eauto.
  rewrite (usable_get d anchors U). eauto.
Qed.

Lemma activate_fallback_returns d anchors chosen st :
  usable d anchors -> exists st', activate_fallback d chosen st = (Ret tt, st').
Proof.
  intros U. unfold activate_fallback, try_except, lift.
  pose proof (usable_click_exact d anchors U chosen) as H1.
  pose proof (usable_click_contains d anchors U chosen) as H2.
  destruct (d_click_exact d chosen) as [[]|[]]; simpl in *; try done; eauto.
  destruct (d_click_contains d chosen) as [[]|[]]; simpl in *; try done; eauto.
  rewrite (usable_get d anchors U). eauto.
Qed.

(** The part of [find_and_click_download] before the selection. *)
Lemma find_and_click_download_unfold d anchors cfg_url target_os st :
  usable d anchors ->
  exists st1,
    find_and_click_download d cfg_url target_os st =
    (let hrefs := unique_hrefs (collect_candidates target_os anchors) in
     match hrefs with
     | [] =>
         warn "No obvious installer link found automatically. The website may require manual download or selectors need updating." >>>
         ret (None, None)
     | first :: _ =>
         match first_suffix_key target_os hrefs with
         | Some chosen =>
             info ("Selected download link (by suffix): " +:+ chosen) >>>
             activate_suffix d chosen >>>
             let* name := lift (d_basename d chosen) in
             ret (Some chosen, name)
         | None =>
             info ("Selected download link (fallback): " +:+ first) >>>
             activate_fallback d first >>>
             let* name := lift (d_basename d first) in
             ret (Some first, name)
         end
     end) st1.
Proof.
  intros U. unfold find_and_click_download.
  unfold bind at 1. unfold info at 1, print at 1.
  unfold bind at 1. unfold lift at 1. rewrite (usable_get d anchors U).
  unfold bind at 1. unfold try_except at 1, lift at 1.
  pose proof (usable_wait d anchors U) as Hw.
  destruct (d_wait_anchors d) as [[]|[]]; simpl in Hw; try done;
    cbn [warn print];
    unfold bind at 1; unfold lift at 1; rewrite (usable_anchors d anchors U);
    eexists; reflexivity.
Qed.


Lemma ideal_driver_usable anchors : usable (ideal_driver anchors) anchors.
Proof. constructor; simpl; eauto. Qed.



(** ** ConfigLoader *)

Lemma startswith_spec (s p : string) :
  startswith s p = true <-> exists r, s = p +:+ r.
Proof.
  revert s. induction p as [|a p IH]; intros s.
  - split; [intros _; by exists s | by destruct s].
  - destruct s as [|b s]; simpl.
    + split; [done | intros [r Hr]; discriminate].
    + destruct (Ascii.eqb a b) eqn:E.
      * apply Ascii.eqb_eq in E as ->. rewrite IH.
        split; intros [r Hr]; exists r; [by rewrite Hr | by inversion Hr].
      * apply Ascii.eqb_neq in E.
        split; [done | intros [r Hr]; inversion Hr; congruence].
Qed.

Lemma string_app_assoc (a b c : string) : (a +:+ b) +:+ c = a +:+ b +:+ c.
Proof.
  induction a as [|x a IH]; [done |].
  change (String x ((a +:+ b) +:+ c) = String x (a +:+ b +:+ c)).
  by rewrite IH.
Qed.

Lemma string_app_empty_r (a : string) : a +:+ "" = a.
Proof.
  induction a as [|x a IH]; [done |].
  change (String x (a +:+ "") = String x a). by rewrite IH.
Qed.

Lemma py_in_spec (sub s : string) :
  py_in sub s = true <-> exists a b, s = a +:+ sub +:+ b.
Proof.
  induction s as [|c s IH].
  - change (py_in sub "") with (startswith "" sub || false).
    rewrite orb_false_r, startswith_spec. split.
    + intros [r Hr]. by exists "", r.
    + intros ([|x a] & b & H); [by exists b | discriminate].
  - change (py_in sub (String c s)) with (startswith (String c s) sub || py_in sub s).
    rewrite orb_true_iff, startswith_spec, IH. split.
    + intros [[r Hr] | (a & b & ->)]; [by exists "", r | by exists (String c a), b].
    + intros ([|x a] & b & H); [left; by exists b |].
      right. exists a, b. by inversion H.
Qed.

Lemma join_names (sep k : string) (l : list string) :
  k ∈ l -> exists a b, join sep l = a +:+ k +:+ b.
Proof.
  induction l as [|x l IH]; [by intros ?%elem_of_nil |].
  intros Hin. destruct l as [|y l].
  - apply list_elem_of_singleton in Hin as ->. exists "", "".
    change (x = x +:+ ""). by rewrite string_app_empty_r.
  - apply elem_of_cons in Hin as [->|Hin].
    + exists "", (sep +:+ join sep (y :: l)). done.
    + destruct (IH Hin) as (a & b & Hab).
      exists (x +:+ sep +:+ a), b.
      change (join sep (x :: y :: l)) with (x +:+ sep +:+ join sep (y :: l)).
      rewrite Hab, !string_app_assoc. done.
Qed.

Lemma message_names (header sep k : string) (l : list string) :
  k ∈ l -> py_in k (header +:+ join sep l) = true.
Proof.
  intros (a & b & Hab)%(join_names sep). apply py_in_spec.
  exists (header +:+ a), b. rewrite Hab, string_app_assoc. done.
Qed.

Lemma missing_keys_filter (w : world) (cfg : config) (st st' : state) :
  load_configuration w st = (Ret cfg, st') ->
  st' = st /\
  missing_keys cfg = filter (blank (load_dotenv w)) required_keys.
Proof.
  unfold load_configuration.
  destruct (match load_dotenv w !! "DOWNLOAD_TIMEOUT" with
            | Some v => if truthy v then python_int v else Some DEFAULT_DOWNLOAD_TIMEOUT
            | None => Some DEFAULT_DOWNLOAD_TIMEOUT
            end) as [t|]; [| discriminate].
  unfold ret. intros [= <- <-]. split; [done |].
  unfold missing_keys, required_keys, blank. simpl.
  repeat match goal with
  | |- context [truthy ?s] =>
      let E := fresh in
      destruct (truthy s) eqn:E;
      [apply truthy_true in E | apply truthy_false in E]
  end;
  repeat (first [rewrite filter_cons_True by done
                | rewrite filter_cons_False by done]);
  rewrite filter_nil; reflexivity.
Qed.



Lemma check_python_dependencies_ok (w : world) (st : state) :
  (forall name, w_importable w name = true) ->
  check_python_dependencies w st = (Ret tt, st).
Proof. intros H. unfold check_python_dependencies. by rewrite !H. Qed.



Example python_int_examples :
  python_int " 42 " = Some 42 /\ python_int "4_2" = Some 42 /\
  python_int "-7" = Some (-7) /\ python_int "+7" = Some 7 /\
  python_int "" = None /\ python_int "_42" = None /\ python_int "42_" = None /\
  python_int "4__2" = None /\ python_int "1.5" = None /\ python_int "2m" = None /\
  python_int "+ 5" = None /\ python_int "   " = None.
Proof. repeat split; reflexivity. Qed.

(** ** DownloadWatcher *)

(** *** The sort *)

Lemma insert_desc_elem (x y : Z * path) (l : list (Z * path)) :
  y ∈ insert_desc x l <-> y = x \/ y ∈ l.
Proof.
  induction l as [|z l IH]; simpl.
  - rewrite list_elem_of_singleton, elem_of_nil. tauto.
  - destruct (fst x <? fst z).
    + rewrite !elem_of_cons, IH. tauto.
    + rewrite !elem_of_cons. tauto.
Qed.

Lemma sort_desc_elem (y : Z * path) (l : list (Z * path)) :
  y ∈ sort_desc l <-> y ∈ l.
Proof.
  induction l as [|x l IH]; simpl; [done |].
  rewrite insert_desc_elem, IH, elem_of_cons. tauto.
Qed.

Lemma insert_desc_descending x l : descending l -> descending (insert_desc x l).
Proof.
  induction l as [|z l IH]; simpl; [by split; [intros ? ?%elem_of_nil |] |].
  intros [Hz Hl]. destruct (fst x <? fst z) eqn:E.
  - apply Z.ltb_lt in E. split; [| by apply IH].
    intros y [-> | Hy]%insert_desc_elem; [lia | by apply Hz].
  - apply Z.ltb_ge in E. split; [| by split].
    intros y [-> | Hy]%elem_of_cons; [done |].
    specialize (Hz y Hy). lia.
Qed.

Lemma sort_desc_descending l : descending (sort_desc l).
Proof.
  induction l as [|x l IH]; simpl; [done | by apply insert_desc_descending].
Qed.

Lemma sort_desc_head (l : list (Z * path)) (k : Z) (p : path) rest :
  sort_desc l = (k, p) :: rest ->
  (k, p) ∈ l /\ forall k' q, (k', q) ∈ l -> k' <= k.
Proof.
  intros Hs. split.
  - apply sort_desc_elem. rewrite Hs. left.
  - intros k' q Hin. apply sort_desc_elem in Hin. rewrite Hs in Hin.
    pose proof (sort_desc_descending l) as Hd. rewrite Hs in Hd.
    destruct Hd as [Hd _].
    apply elem_of_cons in Hin as [[= -> ->] | Hin]; [done |].
    apply (Hd (k', q) Hin).
Qed.

Lemma sort_desc_nonempty (x : Z * path) (l : list (Z * path)) :
  exists y rest, sort_desc (x :: l) = y :: rest.
Proof.
  simpl. destruct (sort_desc l) as [|z r]; simpl; [eauto |].
  destruct (fst x <? fst z); eauto.
Qed.

(** [sort_keys] reads the files in list order and keeps that order. *)
Lemma sort_keys_paths w ps st keyed st' :
  sort_keys w ps st = (Ret keyed, st') -> keyed.*2 = ps.
Proof.
  revert st keyed st'. induction ps as [|p ps IH]; intros st keyed st'; simpl.
  - unfold ret. by intros [= <- <-].
  - unfold bind at 1. destruct (stat_size w p st) as [[k|e] st1]; [| discriminate].
    unfold bind at 1. destruct (sort_keys w ps st1) as [[ks|e] st2] eqn:E;
      [| discriminate].
    unfold ret. intros [= <- <-]. rewrite fmap_cons. simpl. f_equal. eauto.
Qed.

(** *** One pass over the new files *)

Lemma scan_new_sound w exts new acc st completed st' :
  scan_new w exts new acc st = (Ret completed, st') ->
  forall p, p ∈ completed ->
    p ∈ acc \/ (p ∈ new /\ partial_path exts p = false /\ passes_stability w p).
Proof.
  revert acc st. induction new as [|q new IH]; intros acc st; simpl.
  - unfold ret. intros [= <- <-] p Hp. by left.
  - destruct (partial_path exts q) eqn:Hq.
    + intros H p Hp. destruct (IH _ _ H p Hp) as [?|(? & ? & ?)]; [by left |].
      right. split_and!; [by right | done | done].
    + unfold bind at 1.
      destruct (sample_twice w q st) as [[[[s1 s2]|]|e] st1] eqn:Hs;
        [| | discriminate].
      * destruct ((s1 =? s2) && (0 <? s1))%bool eqn:Hc.
        -- apply andb_true_iff in Hc as [->%Z.eqb_eq Hpos%Z.ltb_lt].
           intros H p Hp. destruct (IH _ _ H p Hp) as [Hacc|(? & ? & ?)].
           ++ apply elem_of_app in Hacc as [? | ->%list_elem_of_singleton];
                [by left |].
              right. split_and!; [left | done |]. by exists st, st1, s2.
           ++ right. split_and!; [by right | done | done].
        -- intros H p Hp. destruct (IH _ _ H p Hp) as [?|(? & ? & ?)]; [by left |].
           right. split_and!; [by right | done | done].
      * intros H p Hp. destruct (IH _ _ H p Hp) as [?|(? & ? & ?)]; [by left |].
        right. split_and!; [by right | done | done].
Qed.

(** C3: in a pass in which two or more new files pass the stability
    check, the file returned is one of them and no other of them has a
    larger size among the sizes read for the sort. *)
Theorem largest_stable_file_is_returned (w : world) (download_dir : string)
    (partial_exts : list string) (existing : gset string)
    (st st1 st2 st3 : state) (current completed : list path)
    (keyed : list (Z * path)) :
  iterdir w download_dir st = (Ret current, st1) ->
  scan_new w partial_exts (filter (fun p => path_name p ∉ existing) current) [] st1
    = (Ret completed, st2) ->
  (2 <= length completed)%nat ->
  (info ("Detected completed download: " +:+ repr_list (map path_str completed)) >>>
   sort_keys w completed) st2 = (Ret keyed, st3) ->
  exists size p,
    poll_iteration w download_dir partial_exts existing st = (Ret (Some p), st3) /\
    (size, p) ∈ keyed /\ p ∈ completed /\
    (forall k q, (k, q) ∈ keyed -> k <= size) /\
    (forall q, q ∈ completed ->
       q ∈ current /\ (path_name q ∉ existing) /\
       partial_path partial_exts q = false /\ passes_stability w q).
Proof.
  intros Hdir Hscan Hlen Hkeys.
  destruct completed as [|c0 completed']; [simpl in Hlen; lia |].
  unfold poll_iteration. unfold bind at 1. rewrite Hdir.
  unfold bind at 1. rewrite Hscan.
  unfold bind at 1. unfold bind at 1 in Hkeys.
  destruct (info _ st2) as [[[]|e] st2'] eqn:Hinfo; [| discriminate].
  unfold bind at 1. rewrite Hkeys.
  pose proof (sort_keys_paths _ _ _ _ _ Hkeys) as Hpaths.
  destruct keyed as [|x keyed']; [discriminate |].
  destruct (sort_desc_nonempty x keyed') as ([size p] & rest & Hsort).
  rewrite Hsort. destruct (sort_desc_head _ _ _ _ Hsort) as [Hin Hmax].
  exists size, p. split_and!; [reflexivity | done | | done |].
  - rewrite <- Hpaths. apply list_elem_of_fmap. by exists (size, p).
  - intros q Hq.
    destruct (scan_new_sound _ _ _ _ _ _ _ Hscan q Hq)
      as [?%elem_of_nil | (Hnew & Hpart & Hstable)]; [done |].
    apply list_elem_of_filter in Hnew as [? ?]. done.
Qed.

Lemma largest_stable_file_is_returned_witness :
  let w := watch_world (fun _ => [("pixel.gif", 40); ("setup.exe", 900);
                                  ("notes.txt", 40); ("big.iso.part", 5000)]) in
  exists size p st',
    poll_iteration w "/tmp/dl" default_partial_exts ∅ (initial_state [])
      = (Ret (Some p), st') /\
    p = mkPath "/tmp/dl" "setup.exe" /\ size = 900.
Proof.
  intros w.
  edestruct (largest_stable_file_is_returned w "/tmp/dl" default_partial_exts ∅
               (initial_state []))
    as (size & p & Hrun & Hin & _ & _ & _).
  - reflexivity.
  - vm_compute. reflexivity.
  - simpl. lia.
  - vm_compute. reflexivity.
  - exists size, p. eexists. split; [exact Hrun |].
    revert Hrun. vm_compute. intros [= <-].
    revert Hin. vm_compute. intros Hin.
    split; [reflexivity |].
    repeat (apply elem_of_cons in Hin as [[= -> ] | Hin]; try done).
    by apply elem_of_nil in Hin.
Defined.

(** *** Observations without operator interrupt *)

Lemma observe_quiet (w : world) (k : nat) (st : state) :
  w_sigint w = None ->
  observe w k st = (Ret (st_step st), set_step (st_step st + k) st).
Proof. intros H. unfold observe. by rewrite H. Qed.

Lemma time_now_quiet (w : world) (st : state) :
  w_sigint w = None ->
  time_now w st = (Ret (Z.of_nat (st_step st)), set_step (st_step st + 1) st).
Proof. intros H. unfold time_now, bind. by rewrite observe_quiet. Qed.

Lemma iterdir_quiet (w : world) (dir : string) (st : state) :
  w_sigint w = None ->
  iterdir w dir st =
  (Ret (map (fun e => mkPath dir (fst e)) (w_listdir w (st_step st))),
   set_step (st_step st + 1) st).
Proof. intros H. unfold iterdir, bind. by rewrite observe_quiet. Qed.

Lemma stat_size_quiet (w : world) (p : path) (st : state) :
  w_sigint w = None ->
  stat_size w p st =
  match lookup_size (path_name p) (w_listdir w (st_step st)) with
  | Some sz => (Ret sz, set_step (st_step st + 1) st)
  | None => (Raise (PyException "FileNotFoundError" (path_str p)),
             set_step (st_step st + 1) st)
  end.
Proof.
  intros H. unfold stat_size, bind. rewrite observe_quiet by done.
  by destruct (lookup_size _ _).
Qed.

(** *** Entries that were there before *)

Lemma scan_existing_first (w : world) (exts : list string) (existing : gset string)
    (snapshot : list (string * Z)) (pre post : list path) (p : path) (sz : Z)
    (st : state) :
  w_sigint w = None ->
  (forall n name, name ∈ existing ->
     lookup_size name (w_listdir w n) = lookup_size name snapshot) ->
  path_name p ∈ existing ->
  partial_name exts p = false ->
  lookup_size (path_name p) snapshot = Some sz ->
  0 < sz ->
  (forall q z, q ∈ pre -> path_name q ∈ existing -> partial_name exts q = false ->
     lookup_size (path_name q) snapshot = Some z -> z <= 0) ->
  exists st', scan_existing w exts existing (pre ++ p :: post) st = (Ret (Some p), st').
Proof.
  intros Hq Hfrozen Hin Hpart Hsz Hpos Hpre. revert st.
  induction pre as [|q pre IH]; intros st.
  - simpl. rewrite bool_decide_eq_true_2 by done. rewrite Hpart. simpl.
    unfold bind, try_except. rewrite stat_size_quiet by done.
    rewrite Hfrozen, Hsz by done. unfold ret.
    apply Z.ltb_lt in Hpos. rewrite Hpos. eauto.
  - assert (forall st0, exists st',
               scan_existing w exts existing (pre ++ p :: post) st0 = (Ret (Some p), st'))
      as IH'.
    { apply IH. intros q' z Hq'. apply Hpre. by right. }
    change ((q :: pre) ++ p :: post) with (q :: (pre ++ p :: post)).
    cbn [scan_existing].
    case_bool_decide as Hex; [| apply IH'].
    destruct (partial_name exts q) eqn:Hpq; simpl; [apply IH' |].
    unfold bind at 1. unfold try_except, bind. rewrite stat_size_quiet by done.
    rewrite Hfrozen by done.
    destruct (lookup_size (path_name q) snapshot) as [z|] eqn:Hz.
    + unfold ret.
      assert (z <= 0) as Hle by (eapply (Hpre q z); [left | done ..]).
      apply Z.ltb_ge in Hle. rewrite Hle. apply IH'.
    + unfold ret. apply IH'.
Qed.

Lemma map_path_name (dir : string) (entries : list (string * Z)) :
  map path_name (map (fun e => mkPath dir (fst e)) entries) = entries.*1.
Proof. induction entries as [|e l IH]; [done |]. simpl. by rewrite IH. Qed.

(** C9: a file that was in the directory when the snapshot was taken,
    whose name has no partial-file suffix and whose size is not zero, is
    returned by the first pass in which no new file passes the stability
    check: the first such file in listing order.  Nothing needs to have
    been downloaded.  The files that were there before are assumed to be
    left as they were, and the time limit to let the loop start. *)
Theorem preexisting_file_is_returned (w : world) (download_dir : string)
    (partial_exts : list string) (timeout : Z) (st st2 : state)
    (pre post : list path) (p : path) (size : Z) :
  let snapshot := w_listdir w (st_step st + 1) in
  let existing : gset string := list_to_set (snapshot.*1) in
  let current := map (fun e => mkPath download_dir (fst e)) (w_listdir w (st_step st + 3)) in
  w_sigint w = None ->
  2 < timeout * Z.of_nat (w_hz w) ->
  (forall n name, name ∈ existing ->
     lookup_size name (w_listdir w n) = lookup_size name snapshot) ->
  scan_new w partial_exts (filter (fun q => path_name q ∉ existing) current) []
           (first_pass_state w download_dir st) = (Ret [], st2) ->
  current = pre ++ p :: post ->
  path_name p ∈ existing ->
  partial_name partial_exts p = false ->
  lookup_size (path_name p) snapshot = Some size ->
  0 < size ->
  (forall q z, q ∈ pre -> path_name q ∈ existing -> partial_name partial_exts q = false ->
     lookup_size (path_name q) snapshot = Some z -> z <= 0) ->
  exists st',
    wait_for_download_completion w download_dir partial_exts timeout st
    = (Ret (Some p), st').
Proof.
  intros snapshot existing current Hq Hlimit Hfrozen Hscan Hcur Hin Hpart Hsz Hpos Hpre.
  unfold first_pass_state in Hscan.
  unfold wait_for_download_completion.
  unfold bind at 1. unfold bind at 1 in Hscan.
  rewrite time_now_quiet in * by done.
  unfold bind at 1. unfold bind at 1 in Hscan.
  rewrite iterdir_quiet in * by done.
  cbn [st_step set_step] in *.
  rewrite map_path_name in *. fold snapshot in Hscan |- *. fold existing.
  unfold bind at 1. unfold bind at 1 in Hscan.
  unfold info at 1, print at 1. unfold info at 1, print at 1 in Hscan.
  cbn [st_step st_stdout st_stderr st_inputs st_fs st_launched set_step] in *.
  set (limit := timeout * Z.of_nat (w_hz w)) in *.
  destruct (Z.to_nat limit) as [|fuel] eqn:Hfuel; [lia |].
  cbn [wait_loop].
  unfold bind at 1. unfold bind at 1 in Hscan.
  rewrite time_now_quiet in * by done.
  cbn [st_step set_step] in *.
  replace (Z.of_nat (st_step st + 1 + 1) - Z.of_nat (st_step st) <? limit) with true
    by (symmetry; apply Z.ltb_lt; lia).
  unfold bind at 1. unfold poll_iteration. unfold bind at 1.
  rewrite iterdir_quiet in * by done.
  cbn [st_step set_step snd] in *.
  replace (st_step st + 1 + 1 + 1)%nat with (st_step st + 3)%nat in * by lia.
  fold current in Hscan |- *.
  unfold bind at 1. rewrite Hscan.
  rewrite Hcur.
  edestruct (scan_existing_first w partial_exts existing snapshot pre post p size)
    as [st' ->]; try done.
  unfold ret. eauto.
Qed.

Lemma preexisting_file_is_returned_witness :
  let w := watch_world (fun _ => [("old.part", 10); ("empty.txt", 0);
                                  ("readme.txt", 5); ("other.bin", 7)]) in
  exists st',
    wait_for_download_completion w "/tmp/dl" default_partial_exts 120 (initial_state [])
    = (Ret (Some (mkPath "/tmp/dl" "readme.txt")), st').
Proof.
  intros w.
  eapply (preexisting_file_is_returned w "/tmp/dl" default_partial_exts 120
            (initial_state []) _
            [mkPath "/tmp/dl" "old.part"; mkPath "/tmp/dl" "empty.txt"]
            [mkPath "/tmp/dl" "other.bin"]
            (mkPath "/tmp/dl" "readme.txt") 5).
  - reflexivity.
  - simpl. lia.
  - intros n name _. reflexivity.
  - vm_compute. reflexivity.
  - reflexivity.
  - apply elem_of_list_to_set.
    do 2 apply list_elem_of_further. apply list_elem_of_here.
  - reflexivity.
  - reflexivity.
  - lia.
  - intros q z Hq _ Hpart Hz.
    apply elem_of_cons in Hq as [-> | Hq]; [discriminate |].
    apply list_elem_of_singleton in Hq as ->.
    vm_compute in Hz. injection Hz as <-. lia.
Defined.

(** C2, the code at a directory that holds one old file: [readme.txt]
    was in the snapshot under this very name, which has no partial-file
    suffix, so it never was a partial file that has been renamed since;
    no download takes place, and the file is returned all the same. *)
Lemma never_partial_file_is_accepted :
  let w := watch_world (fun _ => [("readme.txt", 5)]) in
  let p := mkPath "/tmp/dl" "readme.txt" in
  fst (wait_for_download_completion w "/tmp/dl" default_partial_exts 120
         (initial_state []))
  = Ret (Some p) /\
  partial_name default_partial_exts p = false /\
  partial_path default_partial_exts p = false.
Proof. vm_compute. repeat split; reflexivity. Qed.

(** ** What the computations leave alone *)

(** The error stream, the files and the clock each give a relation that
    the monad's combinators keep. *)

#[local] Instance err_unchanged_frame : Frame err_unchanged.
Proof. split; unfold err_unchanged; [done | congruence | done]. Qed.

#[local] Instance err_unchanged_fs : FrameFs err_unchanged.
Proof. by intros st fs. Qed.

#[local] Instance fs_unchanged_frame : Frame fs_unchanged.
Proof. split; unfold fs_unchanged; [done | congruence | done]. Qed.

#[local] Instance fs_unchanged_err : FrameErr fs_unchanged.
Proof. by intros st line. Qed.

#[local] Instance clock_advances_frame : Frame clock_advances.
Proof. split; unfold clock_advances; [done | lia | done]. Qed.

#[local] Instance clock_advances_err : FrameErr clock_advances.
Proof. intros st line. unfold clock_advances. simpl. lia. Qed.

#[local] Instance clock_advances_fs : FrameFs clock_advances.
Proof. intros st fs. unfold clock_advances. simpl. lia. Qed.

Create HintDb quiet discriminated.

#[local] Hint Resolve err_unchanged_frame err_unchanged_fs fs_unchanged_frame
  fs_unchanged_err clock_advances_frame clock_advances_err clock_advances_fs : quiet.

Section Stable.
Context (R : state -> state -> Prop) `{!Frame R}.

Lemma stable_ret {A} (a : A) : stable R (ret a).
Proof. intros st. apply frame_refl. Qed.

Lemma stable_raise {A} (e : pyexc) : stable R (@raise A e).
Proof. intros st. apply frame_refl. Qed.

Lemma stable_lift {A} (r : result A) : stable R (lift r).
Proof. intros st. apply frame_refl. Qed.

Lemma stable_print line : stable R (print line).
Proof. intros st. by apply frame_out. Qed.

Lemma stable_info msg : stable R (info msg).
Proof. apply stable_print. Qed.

Lemma stable_warn msg : stable R (warn msg).
Proof. apply stable_print. Qed.

Lemma stable_bind {A B} (m : M A) (k : A -> M B) :
  stable R m -> (forall a, stable R (k a)) -> stable R (bind m k).
Proof.
  intros Hm Hk st. unfold bind. specialize (Hm st).
  destruct (m st) as [[a|e] st1]; simpl in *; [| done].
  eapply frame_trans; [exact Hm | apply Hk].
Qed.

Lemma stable_try_except {A} (body : M A) handler :
  stable R body -> (forall cls msg, stable R (handler cls msg)) ->
  stable R (try_except body handler).
Proof.
  intros Hb Hh st. unfold try_except. specialize (Hb st).
  destruct (body st) as [[a|[c| |cls msg]] st1]; simpl in *; try done.
  eapply frame_trans; [exact Hb | apply Hh].
Qed.

Lemma stable_try_except_interrupt {A} (body on_interrupt : M A) handler :
  stable R body -> stable R on_interrupt ->
  (forall cls msg, stable R (handler cls msg)) ->
  stable R (try_except_interrupt body on_interrupt handler).
Proof.
  intros Hb Hi Hh st. unfold try_except_interrupt. specialize (Hb st).
  destruct (body st) as [[a|[c| |cls msg]] st1]; simpl in *; try done.
  - eapply frame_trans; [exact Hb | apply Hi].
  - eapply frame_trans; [exact Hb | apply Hh].
Qed.

Lemma stable_try_finally {A} (body : M A) cleanup :
  stable R body -> stable R cleanup -> stable R (try_finally body cleanup).
Proof.
  intros Hb Hc st. unfold try_finally. specialize (Hb st).
  destruct (body st) as [r st1]. specialize (Hc st1).
  destruct (cleanup st1) as [[[]|e] st2]; simpl in *;
    eapply frame_trans; eauto.
Qed.

Lemma stable_observe w k : stable R (observe w k).
Proof.
  intros st. unfold observe.
  destruct (w_sigint w) as [t|]; [| apply frame_out; simpl; [done | done | lia]].
  destruct (_ && _)%bool eqn:E; apply frame_out; simpl; try done; [| lia].
  apply andb_true_iff in E as [E _]. apply Nat.leb_le in E. lia.
Qed.

Lemma stable_input prompt : stable R (input prompt).
Proof.
  intros st. unfold input.
  destruct (st_inputs st) as [|[]]; by apply frame_out.
Qed.

Lemma stable_own_file_exists name : stable R (own_file_exists name).
Proof. intros st. apply frame_refl. Qed.

Lemma stable_popen w cmd : stable R (popen w cmd).
Proof.
  intros st. unfold popen.
  destruct (w_popen w cmd); [by apply frame_out | apply frame_refl].
Qed.

End Stable.

Section StableFs.
Context (R : state -> state -> Prop) `{!Frame R} `{!FrameFs R}.

Lemma stable_write_text name text : stable R (write_text name text).
Proof. intros st. apply frame_fs. Qed.

Lemma stable_os_remove name : stable R (os_remove name).
Proof.
  intros st. unfold os_remove.
  destruct (st_fs st !! name); [apply frame_fs | apply frame_refl].
Qed.

Lemma stable_chmod w name mode : stable R (chmod w name mode).
Proof.
  apply stable_bind; [done | apply stable_lift; done |].
  intros _ st. apply frame_fs.
Qed.

End StableFs.

Section StableErr.
Context (R : state -> state -> Prop) `{!Frame R} `{!FrameErr R}.

Lemma stable_fatal {A} msg : stable R (@fatal A msg).
Proof. intros st. apply frame_err. Qed.

End StableErr.

#[local] Hint Resolve stable_ret stable_raise stable_lift stable_print stable_info
  stable_warn stable_observe stable_input stable_own_file_exists stable_popen
  stable_write_text stable_os_remove stable_chmod stable_fatal : quiet.

(** Break a monadic term into its parts. *)
Ltac quiet_step :=
  match goal with
  | |- stable _ (bind _ _) => apply stable_bind; [solve [auto with quiet] | | intros ?]
  | |- stable _ (try_except _ _) =>
      apply stable_try_except; [solve [auto with quiet] | | intros ? ?]
  | |- stable _ (try_except_interrupt _ _ _) =>
      apply stable_try_except_interrupt; [solve [auto with quiet] | | | intros ? ?]
  | |- stable _ (try_finally _ _) =>
      apply stable_try_finally; [solve [auto with quiet] | | ]
  | |- stable _ (if ?b then _ else _) => destruct b
  | |- stable _ (match ?x with _ => _ end) => destruct x
  | |- stable _ _ => solve [auto with quiet]
  end.

Ltac quiet := repeat quiet_step.

Section StableDerived.
Context (R : state -> state -> Prop) `{!Frame R}.

Lemma stable_time_now w : stable R (time_now w).
Proof. unfold time_now. quiet. Qed.

Lemma stable_sleep_half w : stable R (sleep_half w).
Proof. unfold sleep_half. quiet. Qed.

Lemma stable_sleep_one w : stable R (sleep_one w).
Proof. unfold sleep_one. quiet. Qed.

Lemma stable_find_executable w cmd : stable R (find_executable w cmd).
Proof. unfold find_executable. quiet. Qed.

Lemma stable_iterdir w dir : stable R (iterdir w dir).
Proof. unfold iterdir. quiet. Qed.

Lemma stable_stat_size w p : stable R (stat_size w p).
Proof. unfold stat_size. quiet. Qed.

Hint Resolve stable_time_now stable_sleep_half stable_sleep_one
  stable_find_executable stable_iterdir stable_stat_size : quiet.

Lemma stable_sample_twice w p : stable R (sample_twice w p).
Proof. unfold sample_twice. quiet. Qed.

Hint Resolve stable_sample_twice : quiet.

Lemma stable_scan_new w exts new acc : stable R (scan_new w exts new acc).
Proof. revert acc. induction new as [|p new IH]; intros acc; simpl; quiet. Qed.

Lemma stable_sort_keys w ps : stable R (sort_keys w ps).
Proof. induction ps as [|p ps IH]; simpl; quiet. Qed.

Lemma stable_scan_existing w exts existing current :
  stable R (scan_existing w exts existing current).
Proof. induction current as [|p l IH]; simpl; quiet. Qed.

Hint Resolve stable_scan_new stable_sort_keys stable_scan_existing : quiet.

Lemma stable_poll_iteration w dir exts existing :
  stable R (poll_iteration w dir exts existing).
Proof. unfold poll_iteration. quiet. Qed.

Hint Resolve stable_poll_iteration : quiet.

Lemma stable_wait_loop w dir exts existing start limit fuel :
  stable R (wait_loop w dir exts existing start limit fuel).
Proof. induction fuel as [|fuel IH]; simpl; quiet. Qed.

Hint Resolve stable_wait_loop : quiet.

Lemma stable_wait_for_download_completion w dir exts timeout :
  stable R (wait_for_download_completion w dir exts timeout).
Proof. unfold wait_for_download_completion. quiet. Qed.

Lemma stable_find_and_click_download d url target_os :
  stable R (find_and_click_download d url target_os).
Proof. unfold find_and_click_download, activate_suffix, activate_fallback. quiet. Qed.

Lemma stable_choose_browser_preference b : stable R (choose_browser_preference b).
Proof. unfold choose_browser_preference. quiet. Qed.

Lemma stable_driver_quit w d : stable R (driver_quit w d).
Proof. unfold driver_quit. quiet. Qed.

Lemma stable_confirm_loop fuel : stable R (confirm_loop fuel).
Proof. induction fuel as [|fuel IH]; simpl; quiet. Qed.

Hint Resolve stable_confirm_loop : quiet.

Lemma stable_ask_user_to_run_installer w p : stable R (ask_user_to_run_installer w p).
Proof.
  unfold ask_user_to_run_installer. quiet.
  intros st. apply stable_confirm_loop.
Qed.

Lemma stable_check_openvpn_present w : stable R (check_openvpn_present w).
Proof. unfold check_openvpn_present. destruct (startswith _ _); quiet. Qed.

Lemma stable_stream_lines lines ending : stable R (stream_lines lines ending).
Proof. induction lines as [|l lines IH]; simpl; quiet. Qed.

Lemma stable_load_configuration w : stable R (load_configuration w).
Proof. unfold load_configuration. quiet. Qed.

End StableDerived.

#[local] Hint Resolve stable_time_now stable_sleep_half stable_sleep_one
  stable_find_executable stable_iterdir stable_stat_size stable_sample_twice
  stable_scan_new stable_sort_keys stable_scan_existing stable_poll_iteration
  stable_wait_loop stable_wait_for_download_completion
  stable_find_and_click_download stable_choose_browser_preference
  stable_driver_quit stable_confirm_loop stable_ask_user_to_run_installer
  stable_check_openvpn_present stable_stream_lines stable_load_configuration : quiet.

Lemma stable_create_auth_file (R : state -> state -> Prop) `{!Frame R} `{!FrameFs R}
    w u p : stable R (create_auth_file w u p).
Proof. unfold create_auth_file. quiet. Qed.

#[local] Hint Resolve stable_create_auth_file : quiet.

(** ** The loop has passes enough *)

Lemma bind_ext {A B} (m : M A) (k1 k2 : A -> M B) (st : state) :
  (forall a st', m st = (Ret a, st') -> k1 a st' = k2 a st') ->
  bind m k1 st = bind m k2 st.
Proof.
  intros H. unfold bind. destruct (m st) as [[a|e] st']; [by apply H | done].
Qed.

Lemma time_now_ret (w : world) (st st' : state) (t : Z) :
  time_now w st = (Ret t, st') ->
  t = Z.of_nat (st_step st) /\ (st_step st < st_step st')%nat.
Proof.
  unfold time_now, bind, observe, ret.
  destruct (w_sigint w) as [t0|].
  - destruct (_ && _)%bool; [discriminate |].
    intros [= <- <-]. simpl. split; [done | lia].
  - intros [= <- <-]. simpl. split; [done | lia].
Qed.

Lemma clock_after {A} (m : M A) (st st' : state) (r : result A) :
  stable clock_advances m -> m st = (r, st') -> (st_step st <= st_step st')%nat.
Proof. intros H E. specialize (H st). by rewrite E in H. Qed.

(** A pass of the loop takes at least one tick: once [fuel] covers the
    ticks that are left of the time limit, one pass more changes nothing. *)
Lemma wait_loop_fuel (w : world) (dir : string) (exts : list string)
    (existing : gset string) (start limit : Z) (fuel : nat) (st : state) :
  limit - (Z.of_nat (st_step st) - start) <= Z.of_nat fuel ->
  wait_loop w dir exts existing start limit (S fuel) st =
  wait_loop w dir exts existing start limit fuel st.
Proof.
  revert st. induction fuel as [|fuel IH]; intros st Hle.
  - cbn [wait_loop]. apply bind_ext. intros t st1 [-> Hlt]%time_now_ret.
    destruct (_ <? limit) eqn:E; [| done].
    apply Z.ltb_lt in E. lia.
  - change (wait_loop w dir exts existing start limit (S (S fuel)) st)
      with ((let* t := time_now w in
             if t - start <? limit then
               let* found := poll_iteration w dir exts existing in
               match found with
               | Some p => ret (Some p)
               | None =>
                   sleep_one w >>>
                   wait_loop w dir exts existing start limit (S fuel)
               end
             else warn "Timeout waiting for download completion." >>> ret None) st).
    change (wait_loop w dir exts existing start limit (S fuel) st)
      with ((let* t := time_now w in
             if t - start <? limit then
               let* found := poll_iteration w dir exts existing in
               match found with
               | Some p => ret (Some p)
               | None =>
                   sleep_one w >>>
                   wait_loop w dir exts existing start limit fuel
               end
             else warn "Timeout waiting for download completion." >>> ret None) st).
    apply bind_ext. intros t st1 [-> Hlt]%time_now_ret.
    destruct (_ <? limit); [| done].
    apply bind_ext. intros [p|] st2 Hpoll; [done |].
    apply bind_ext. intros [] st3 Hsleep. apply IH.
    pose proof (clock_after _ _ _ _ (stable_poll_iteration _ w dir exts existing) Hpoll).
    pose proof (clock_after _ _ _ _ (stable_sleep_one _ w) Hsleep).
    lia.
Qed.

Lemma wait_loop_enough_fuel (w : world) (dir : string) (exts : list string)
    (existing : gset string) (start limit : Z) (fuel extra : nat) (st : state) :
  limit - (Z.of_nat (st_step st) - start) <= Z.of_nat fuel ->
  wait_loop w dir exts existing start limit (fuel + extra) st =
  wait_loop w dir exts existing start limit fuel st.
Proof.
  intros Hle. induction extra as [|extra IH].
  - by rewrite Nat.add_0_r.
  - rewrite Nat.add_succ_r, wait_loop_fuel; [done | lia].
Qed.

(** The number of passes that [wait_for_download_completion] allows the
    loop is never the reason why the loop ends: with any number of
    further passes the result is the same. *)
Lemma wait_for_download_completion_fuel (w : world) (dir : string)
    (exts : list string) (timeout : Z) (extra : nat) (st : state) :
  (let* start := time_now w in
   let* listing := iterdir w dir in
   let existing : gset string := list_to_set (map path_name listing) in
   info ("Existing files before download: " +:+ repr_list (map path_name listing)) >>>
   let limit := timeout * Z.of_nat (w_hz w) in
   wait_loop w dir exts existing start limit (Z.to_nat limit + extra)) st
  = wait_for_download_completion w dir exts timeout st.
Proof.
  unfold wait_for_download_completion.
  apply bind_ext. intros start st1 [-> Hlt]%time_now_ret.
  apply bind_ext. intros listing st2 Hdir.
  apply bind_ext. intros [] st3 Hinfo.
  apply wait_loop_enough_fuel.
  pose proof (clock_after _ _ _ _ (stable_iterdir _ w dir) Hdir).
  pose proof (clock_after _ _ _ _ (stable_info _ _) Hinfo).
  lia.
Qed.

Lemma input_ret (prompt : string) (st st' : state) (s : string) :
  input prompt st = (Ret s, st') ->
  S (length (st_inputs st')) = length (st_inputs st).
Proof.
  unfold input. destruct (st_inputs st) as [|[x| |] rest]; try discriminate.
  by intros [= _ <-].
Qed.

(** The same for the confirmation loop: a pass consumes one event of
    the operator, and the pass after the last event ends in [EOFError]. *)
Lemma confirm_loop_fuel (fuel : nat) (st : state) :
  (length (st_inputs st) <= fuel)%nat ->
  confirm_loop (S fuel) st = confirm_loop fuel st.
Proof.
  revert st. induction fuel as [|fuel IH]; intros st Hle.
  - cbn [confirm_loop]. apply bind_ext. intros raw st1 Hin%input_ret. lia.
  - change (confirm_loop (S (S fuel)) st)
      with ((let* raw := input "Have you completed installation? (yes/no): " in
             let choice := py_lower (strip raw) in
             if String.eqb choice "yes" then ret tt
             else
               (if bool_decide (choice = "no" \/ choice = "n")
                then print "Please complete installation and return here when finished."
                else print "Please type 'yes' when installation is complete, or ctrl-c to abort.") >>>
               confirm_loop (S fuel)) st).
    change (confirm_loop (S fuel) st)
      with ((let* raw := input "Have you completed installation? (yes/no): " in
             let choice := py_lower (strip raw) in
             if String.eqb choice "yes" then ret tt
             else
               (if bool_decide (choice = "no" \/ choice = "n")
                then print "Please complete installation and return here when finished."
                else print "Please type 'yes' when installation is complete, or ctrl-c to abort.") >>>
               confirm_loop fuel) st).
    apply bind_ext. intros raw st1 Hin%input_ret. cbv zeta.
    destruct (String.eqb _ "yes"); [done |].
    apply bind_ext. intros [] st2 Hp. apply IH.
    assert (st_inputs st2 = st_inputs st1) as ->; [| lia].
    destruct (bool_decide _); unfold print in Hp; by injection Hp as <-.
Qed.

(** ** The credentials file *)

Lemma bind_ret_inv {A B} (m : M A) (k : A -> M B) (st st' : state) (b : B) :
  bind m k st = (Ret b, st') ->
  exists a st1, m st = (Ret a, st1) /\ k a st1 = (Ret b, st').
Proof.
  unfold bind. destruct (m st) as [[a|e] st1]; [eauto | discriminate].
Qed.

Lemma create_auth_file_spec (w : world) (u p : string) (st st' : state) (authf : string) :
  create_auth_file w u p st = (Ret authf, st') ->
  authf = w_mkdtemp w "vpn_auth_" +:+ "/" +:+ "openvpn_auth.txt" /\
  exists mode, st_fs st' !! authf = Some (mkFile (u +:+ newline +:+ p +:+ newline) mode).
Proof.
  unfold create_auth_file.
  intros ([] & st1 & Hw & H)%bind_ret_inv.
  apply bind_ret_inv in H as ([] & st2 & Hc & H).
  unfold ret in H. injection H as <- <-. split; [done |].
  unfold write_text in Hw. injection Hw as <-.
  unfold try_except in Hc.
  destruct (String.eqb (w_os_name w) "posix").
  - unfold chmod, bind, lift in Hc.
    destruct (w_chmod w) as [[]|[c| |cls msg]]; simpl in Hc; try discriminate.
    + injection Hc as <-. simpl. rewrite lookup_alter_eq, lookup_insert_eq. simpl. eauto.
    + unfold ret in Hc. injection Hc as <-. simpl. rewrite lookup_insert_eq. eauto.
  - unfold ret in Hc. injection Hc as <-. simpl. rewrite lookup_insert_eq. eauto.
Qed.

(** X16: whenever [connect_vpn] of [vpn_automator.py] returns, the file
    with the two credential lines exists: the script has no step that
    removes it. *)
Lemma auth_file_is_never_removed (w : world) (cfg : config) (st st' : state) :
  connect_vpn w cfg st = (Ret tt, st') ->
  exists mode,
    st_fs st' !! (w_mkdtemp w "vpn_auth_" +:+ "/" +:+ "openvpn_auth.txt") =
    Some (mkFile (VPN_USERNAME cfg +:+ newline +:+ VPN_PASSWORD cfg +:+ newline) mode).
Proof.
  unfold connect_vpn.
  intros (found & st1 & _ & H)%bind_ret_inv.
  apply bind_ret_inv in H as (openvpn_path & st2 & _ & H).
  apply bind_ret_inv in H as ([] & st3 & _ & H).
  apply bind_ret_inv in H as (authf & st4 & Hauth & H).
  apply create_auth_file_spec in Hauth as [-> (mode & Hfile)].
  exists mode. rewrite <- Hfile.
  match type of H with
  | ?m st4 = _ => assert (stable fs_unchanged m) as Hstable by quiet
  end.
  specialize (Hstable st4). rewrite H in Hstable. simpl in Hstable.
  unfold fs_unchanged in Hstable. by rewrite Hstable.
Qed.

(** ** Exit codes *)

(** *** Computations that write to the error stream only through [fatal] *)

Lemma clean_silent {A} (m : M A) : silent m -> clean m.
Proof. intros H st. left. apply H. Qed.

Lemma clean_fatal {A} msg : clean (@fatal A msg).
Proof. intros st. right. split; [done |]. by exists msg. Qed.

Lemma clean_bind_from {A B} (m : M A) (k : A -> M B) :
  clean m ->
  (forall a, (exists st st', m st = (Ret a, st')) -> clean (k a)) ->
  clean (bind m k).
Proof.
  intros Hm Hk st. unfold bind. specialize (Hm st).
  destruct (m st) as [[a|e] st1] eqn:E; simpl in *.
  - destruct Hm as [Hm | [? _]]; [| done].
    rewrite <- Hm. apply Hk. eauto.
  - destruct Hm as [Hm | [[= ->] Hm]]; [by left | by right].
Qed.

Lemma clean_bind {A B} (m : M A) (k : A -> M B) :
  clean m -> (forall a, clean (k a)) -> clean (bind m k).
Proof. intros Hm Hk. apply clean_bind_from; auto. Qed.

Lemma clean_try_except {A} (body : M A) handler :
  clean body -> (forall cls msg, clean (handler cls msg)) ->
  clean (try_except body handler).
Proof.
  intros Hb Hh st. unfold try_except. specialize (Hb st).
  destruct (body st) as [[a|[c| |cls msg]] st1]; simpl in *; try exact Hb.
  destruct Hb as [Hb | [? _]]; [| done].
  rewrite <- Hb. apply Hh.
Qed.

Lemma clean_try_finally {A} (body : M A) cleanup :
  clean body -> harmless cleanup -> clean (try_finally body cleanup).
Proof.
  intros Hb Hc st. unfold try_finally. specialize (Hb st).
  destruct (body st) as [r st1]. destruct (Hc st1) as [Hr He].
  destruct (cleanup st1) as [[[]|e] st2]; simpl in *; [| done].
  rewrite He. exact Hb.
Qed.

Ltac clean_step :=
  match goal with
  | |- clean (fatal _) => apply clean_fatal
  | |- clean (bind _ _) => apply clean_bind; [| intros ?]
  | |- clean (try_except _ _) => apply clean_try_except; [| intros ? ?]
  | |- clean (if ?b then _ else _) => destruct b
  | |- clean (match ?x with _ => _ end) => destruct x
  | |- clean _ => solve [apply clean_silent; quiet]
  end.

Ltac cleanup := repeat clean_step.

Lemma clean_check_python_dependencies w : clean (check_python_dependencies w).
Proof.
  unfold check_python_dependencies.
  destruct (_ ++ _); cleanup.
Qed.

Lemma clean_sanity_check_config cfg : clean (sanity_check_config cfg).
Proof. unfold sanity_check_config. cleanup. Qed.

Lemma clean_prepare_webdriver w dir prefer : clean (prepare_webdriver w dir prefer).
Proof. unfold prepare_webdriver. cleanup. Qed.

Lemma prepare_webdriver_origin w dir prefer st d name st' :
  prepare_webdriver w dir prefer st = (Ret (d, name), st') ->
  w_chrome w = Ret d \/ w_firefox w = Ret d.
Proof.
  unfold prepare_webdriver, try_except, bind, lift, info, warn, print, ret, fatal,
    eprint, raise.
  destruct (String.eqb prefer "chrome").
  - destruct (w_chrome w) as [dc|[c| |cls msg]]; simpl.
    + intros [= <- _ _]. by left.
    + discriminate.
    + discriminate.
    + destruct (w_firefox w) as [df|[c| |cls' msg']]; simpl;
        [intros [= <- _ _]; by right | discriminate ..].
  - destruct (w_firefox w) as [df|[c| |cls' msg']]; simpl;
      [intros [= <- _ _]; by right | discriminate ..].
Qed.

Lemma harmless_quit w d :
  w_sigint w = None -> (forall n, ordinary (d_quit d n)) ->
  harmless (try_except (driver_quit w d) (fun _ _ => ret tt)).
Proof.
  intros Hq Hd st. unfold try_except, driver_quit, bind, lift.
  rewrite observe_quiet by done. specialize (Hd (st_step st)).
  destruct (d_quit d (st_step st)) as [[]|[c| |cls msg]]; simpl in *; done.
Qed.

Lemma clean_download_installer w cfg : undisturbed w -> clean (download_installer w cfg).
Proof.
  intros [Hq Hd]. unfold download_installer.
  do 3 (apply clean_bind; [apply clean_silent; quiet | intros ?]).
  apply clean_bind_from; [apply clean_prepare_webdriver |].
  intros [d name] (st & st' & Hprep). apply prepare_webdriver_origin in Hprep.
  apply clean_try_finally.
  - cleanup.
  - apply harmless_quit; [done |]. intros n. by apply Hd.
Qed.

Lemma clean_connect_vpn w cfg : clean (connect_vpn w cfg).
Proof. unfold connect_vpn. cleanup. Qed.

Lemma clean_main w : undisturbed w -> clean (main w).
Proof.
  intros Hw. unfold main.
  apply clean_bind; [apply clean_check_python_dependencies | intros _].
  apply clean_bind; [apply clean_silent; quiet | intros cfg].
  apply clean_bind; [apply clean_sanity_check_config | intros _].
  apply clean_bind; [apply clean_silent; quiet | intros present].
  apply clean_bind.
  - destruct present; [apply clean_silent; quiet |].
    apply clean_bind.
    + apply clean_try_except; [by apply clean_download_installer | intros; cleanup].
    + intros p. cleanup.
  - intros _. apply clean_try_except; [apply clean_connect_vpn | intros; cleanup].
Qed.

Lemma sanity_check_config_fatal (cfg : config) (st : state) :
  missing_keys cfg <> [] ->
  fst (sanity_check_config cfg st) = Raise (SystemExit 1).
Proof.
  intros H. unfold sanity_check_config.
  destruct (missing_keys cfg); [done | reflexivity].
Qed.

Lemma entrypoint_clean (w : world) (st : state) :
  undisturbed w ->
  st_stderr (snd (entrypoint w st)) = st_stderr st \/
  fst (entrypoint w st) = Raise (SystemExit 1).
Proof.
  intros Hw. unfold entrypoint.
  destruct (clean_main w Hw st) as [H | [H _]];
    destruct (main w st) as [[[]|[c| |cls msg]] st1]; simpl in *;
    try discriminate; auto.
Qed.


Lemma quiet_world_undisturbed env : undisturbed (quiet_world env).
Proof. split; [done |]. intros d n [H | H]; discriminate. Qed.



(** C6, the code at a run in which OpenVPN starts and ends by itself:
    when [connect_vpn] of [vpn_automator.py] has returned, the file
    with the two credential lines is still there (with owner-only
    permissions); nothing in that script removes it. *)
Lemma auth_file_outlives_connection :
  let w := vpn_world None proc_exited in
  let cfg := mkConfig "http://x/dl" "client.ovpn" "alice" "secret" None 120 in
  let out := connect_vpn w cfg (initial_state []) in
  fst out = Ret tt /\
  st_launched (snd out) =
    [["sudo"; "/usr/sbin/openvpn"; "--config"; "client.ovpn"; "--auth-user-pass";
      "/tmp/vpn_auth_0/openvpn_auth.txt"]] /\
  st_fs (snd out) !! "/tmp/vpn_auth_0/openvpn_auth.txt" =
    Some (mkFile ("alice" +:+ newline +:+ "secret" +:+ newline) (Some owner_only)).
Proof. vm_compute. repeat split; reflexivity. Qed.

(** ** Further properties of the scripts *)

(** *** Parts of the state that a computation leaves alone *)

Section Keeps.
Context {X : Type} (f : state -> X).

Lemma keeps_ret {A} (a : A) : keeps f (ret a).
Proof. by intros st. Qed.

Lemma keeps_raise {A} (e : pyexc) : keeps f (@raise A e).
Proof. by intros st. Qed.

Lemma keeps_lift {A} (r : result A) : keeps f (lift r).
Proof. by intros st. Qed.

Lemma keeps_bind {A B} (m : M A) (k : A -> M B) :
  keeps f m -> (forall a, keeps f (k a)) -> keeps f (bind m k).
Proof.
  intros Hm Hk st. unfold bind. specialize (Hm st).
  destruct (m st) as [[a|e] st1]; simpl in *; [| done].
  by rewrite Hk.
Qed.

Lemma keeps_try_except {A} (body : M A) handler :
  keeps f body -> (forall cls msg, keeps f (handler cls msg)) ->
  keeps f (try_except body handler).
Proof.
  intros Hb Hh st. unfold try_except. specialize (Hb st).
  destruct (body st) as [[a|[c| |cls msg]] st1]; simpl in *; try done.
  by rewrite Hh.
Qed.

Lemma keeps_try_except_interrupt {A} (body on_interrupt : M A) handler :
  keeps f body -> keeps f on_interrupt -> (forall cls msg, keeps f (handler cls msg)) ->
  keeps f (try_except_interrupt body on_interrupt handler).
Proof.
  intros Hb Hi Hh st. unfold try_except_interrupt. specialize (Hb st).
  destruct (body st) as [[a|[c| |cls msg]] st1]; simpl in *; try done.
  - by rewrite Hi.
  - by rewrite Hh.
Qed.

Lemma keeps_try_finally {A} (body : M A) cleanup :
  keeps f body -> keeps f cleanup -> keeps f (try_finally body cleanup).
Proof.
  intros Hb Hc st. unfold try_finally. specialize (Hb st).
  destruct (body st) as [r st1]. specialize (Hc st1).
  destruct (cleanup st1) as [[[]|e] st2]; simpl in *; congruence.
Qed.

End Keeps.

(** What does not start a process. *)
Lemma launched_print line : keeps st_launched (print line).
Proof. by intros st. Qed.

Lemma launched_info msg : keeps st_launched (info msg).
Proof. by intros st. Qed.

Lemma launched_warn msg : keeps st_launched (warn msg).
Proof. by intros st. Qed.

Lemma launched_fatal {A} msg : keeps st_launched (@fatal A msg).
Proof. by intros st. Qed.

Lemma launched_observe w k : keeps st_launched (observe w k).
Proof.
  intros st. unfold observe. destruct (w_sigint w); [| done].
  by destruct (_ && _)%bool.
Qed.

Lemma launched_input prompt : keeps st_launched (input prompt).
Proof. intros st. unfold input. by destruct (st_inputs st) as [|[]]. Qed.

Lemma launched_write_text name text : keeps st_launched (write_text name text).
Proof. by intros st. Qed.

Lemma launched_os_remove name : keeps st_launched (os_remove name).
Proof. intros st. unfold os_remove. by destruct (st_fs st !! name). Qed.

Lemma launched_own_file_exists name : keeps st_launched (own_file_exists name).
Proof. by intros st. Qed.

Create HintDb kept discriminated.

#[local] Hint Resolve keeps_ret keeps_raise keeps_lift launched_print launched_info
  launched_warn launched_fatal launched_observe launched_input launched_write_text
  launched_os_remove launched_own_file_exists : kept.

Ltac kept_step :=
  match goal with
  | |- keeps _ (bind _ _) => apply keeps_bind; [| intros ?]
  | |- keeps _ (try_except _ _) => apply keeps_try_except; [| intros ? ?]
  | |- keeps _ (try_except_interrupt _ _ _) =>
      apply keeps_try_except_interrupt; [| | intros ? ?]
  | |- keeps _ (try_finally _ _) => apply keeps_try_finally
  | |- keeps _ (if ?b then _ else _) => destruct b
  | |- keeps _ (match ?x with _ => _ end) => destruct x
  | |- keeps _ _ => solve [auto with kept]
  end.

Ltac kept := repeat kept_step.

Lemma launched_find_executable w cmd : keeps st_launched (find_executable w cmd).
Proof. unfold find_executable. kept. Qed.

#[local] Hint Resolve launched_find_executable : kept.

Lemma launched_check_openvpn_present w : keeps st_launched (check_openvpn_present w).
Proof. unfold check_openvpn_present. destruct (startswith _ _); kept. Qed.

Lemma launched_chmod w name mode : keeps st_launched (chmod w name mode).
Proof. unfold chmod. kept. by intros st. Qed.

#[local] Hint Resolve launched_check_openvpn_present launched_chmod : kept.

Lemma launched_create_auth_file w u p : keeps st_launched (create_auth_file w u p).
Proof. unfold create_auth_file. kept. Qed.

Lemma launched_stream_lines lines ending : keeps st_launched (stream_lines lines ending).
Proof. induction lines as [|l lines IH]; simpl; kept. Qed.

Lemma launched_load_configuration w : keeps st_launched (load_configuration w).
Proof. unfold load_configuration. kept. Qed.

Lemma launched_sanity_check_config cfg : keeps st_launched (sanity_check_config cfg).
Proof. unfold sanity_check_config. kept. Qed.

Lemma launched_check_python_dependencies w :
  keeps st_launched (check_python_dependencies w).
Proof. unfold check_python_dependencies. destruct (_ ++ _); kept. Qed.

#[local] Hint Resolve launched_create_auth_file launched_stream_lines
  launched_load_configuration launched_sanity_check_config
  launched_check_python_dependencies : kept.

Lemma kept_after {X A} (f : state -> X) (m : M A) (st st' : state) (r : result A) :
  keeps f m -> m st = (r, st') -> f st' = f st.
Proof. intros H E. specialize (H st). by rewrite E in H. Qed.

(** *** Connecting: [connect_vpn] of [vpn_automator.py] *)

Lemma find_executable_ret w c st r st' :
  find_executable w c st = (Ret r, st') -> exists n, r = w_which w n c.
Proof.
  unfold find_executable. intros (n & st1 & _ & H)%bind_ret_inv.
  unfold ret in H. injection H as <- _. eauto.
Qed.

Lemma find_executable_quiet w c st :
  w_sigint w = None ->
  find_executable w c st =
  (Ret (w_which w (st_step st) c), set_step (st_step st + 1) st).
Proof. intros H. unfold find_executable, bind. by rewrite observe_quiet. Qed.

Lemma check_openvpn_present_found w st x st' :
  check_openvpn_present w st = (Ret (Some x), st') ->
  exists n c, w_which w n c = Some x /\ (c = "openvpn.exe" \/ c = "openvpn").
Proof.
  assert (forall st0 st1, (let* p := find_executable w "openvpn" in
             match p with
             | Some y => if truthy y then ret (Some y) else ret None
             | None => ret None
             end) st0 = (Ret (Some x), st1) ->
          exists n, w_which w n "openvpn" = Some x) as Hlast.
  { intros st0 st1 (p & st2 & [m ->]%find_executable_ret & H)%bind_ret_inv.
    destruct (w_which w m "openvpn") as [z|] eqn:E2; [| discriminate].
    destruct (truthy z); [| discriminate].
    unfold ret in H. injection H as <- _. eauto. }
  unfold check_openvpn_present.
  destruct (startswith _ _).
  - intros (p & st1 & [n ->]%find_executable_ret & H)%bind_ret_inv.
    destruct (w_which w n "openvpn.exe") as [y|] eqn:E1.
    + destruct (truthy y).
      * unfold ret in H. injection H as <- _.
        exists n, "openvpn.exe". split; [done | by left].
      * apply Hlast in H as [m Hm]. exists m, "openvpn". split; [done | by right].
    + apply Hlast in H as [m Hm]. exists m, "openvpn". split; [done | by right].
  - intros [m Hm]%Hlast. exists m, "openvpn". split; [done | by right].
Qed.

Lemma check_openvpn_present_returns w st :
  w_sigint w = None -> exists r st', check_openvpn_present w st = (Ret r, st').
Proof.
  intros Hq. unfold check_openvpn_present.
  destruct (startswith _ _); unfold bind;
    repeat (rewrite find_executable_quiet by done;
            destruct (w_which _ _ _) as [?|]; [destruct (truthy _) |]);
    unfold ret; eauto.
Qed.

(** X1: without an openvpn executable, or without the configuration
    file, [connect_vpn] stops before it writes the credentials and before
    it starts anything; unless the operator interrupts, it stops by
    [fatal]. *)
Theorem connect_vpn_needs_openvpn_and_config (w : world) (cfg : config) (st : state) :
  (forall n cmd, w_which w n cmd = None) \/ w_exists w (VPN_CONFIG_FILE cfg) = false ->
  let out := connect_vpn w cfg st in
  st_fs (snd out) = st_fs st /\
  st_launched (snd out) = st_launched st /\
  (exists e, fst out = Raise e) /\
  (w_sigint w = None -> fst out = Raise (SystemExit 1)).
Proof.
  intros H out. subst out.
  destruct (connect_vpn w cfg st) as [r st'] eqn:Hrun. simpl.
  pose proof (stable_check_openvpn_present fs_unchanged w st) as Hfs.
  pose proof (launched_check_openvpn_present w st) as Hl.
  unfold fs_unchanged in Hfs.
  unfold connect_vpn in Hrun. unfold bind at 1 in Hrun.
  destruct (check_openvpn_present w st) as [[found|e] st1] eqn:E; simpl in Hfs, Hl.
  - assert (r = Raise (SystemExit 1) /\ st_fs st' = st_fs st1 /\
            st_launched st' = st_launched st1) as (-> & -> & ->).
    { destruct found as [x|].
      + destruct H as [H | H].
        * apply check_openvpn_present_found in E as (n & c & E & _).
          by rewrite H in E.
        * unfold bind at 1 in Hrun. unfold ret at 1 in Hrun.
          unfold bind at 1 in Hrun. rewrite H in Hrun.
          by injection Hrun as <- <-.
      + unfold bind at 1 in Hrun. by injection Hrun as <- <-. }
    split_and!; [exact Hfs | exact Hl | by eexists | done].
  - injection Hrun as <- <-.
    split_and!; [exact Hfs | exact Hl | by eexists |].
    intros Hq. destruct (check_openvpn_present_returns w st Hq) as (r & st' & E').
    rewrite E' in E. discriminate.
Qed.

Lemma connect_vpn_needs_openvpn_and_config_witness :
  let cfg := mkConfig "http://x/dl" "client.ovpn" "alice" "secret" None 120 in
  let out := connect_vpn (quiet_world full_env) cfg (initial_state []) in
  st_fs (snd out) = ∅ /\ st_launched (snd out) = [] /\
  fst out = Raise (SystemExit 1).
Proof.
  intros cfg out.
  destruct (connect_vpn_needs_openvpn_and_config (quiet_world full_env) cfg
              (initial_state [])) as (Hfs & Hl & _ & He).
  - left. intros n cmd. reflexivity.
  - split_and!; [exact Hfs | exact Hl | apply He; reflexivity].
Defined.

Lemma popen_ret w cmd st proc st' :
  try_except (popen w cmd)
    (fun _ msg => fatal ("Failed to start openvpn process: " +:+ msg)) st
  = (Ret proc, st') ->
  st_launched st' = st_launched st ++ [cmd].
Proof.
  unfold try_except, popen.
  destruct (w_popen w cmd) as [pr|[c| |cls msg]]; try discriminate.
  by intros [= _ <-].
Qed.



(** *** The run as a whole *)

Lemma check_python_dependencies_cases (w : world) (st : state) :
  check_python_dependencies w st = (Ret tt, st) \/
  exists st', check_python_dependencies w st = (Raise (SystemExit 1), st') /\
              st_launched st' = st_launched st /\ st_fs st' = st_fs st.
Proof.
  unfold check_python_dependencies.
  destruct (w_importable w "selenium"), (w_importable w "webdriver_manager"),
    (w_importable w "dotenv"); simpl; first [by left | right; by eexists].
Qed.

Lemma load_configuration_cases (w : world) (st : state) :
  (exists cfg, load_configuration w st = (Ret cfg, st)) \/
  load_configuration w st = (Raise value_error, st).
Proof.
  unfold load_configuration.
  destruct (match load_dotenv w !! "DOWNLOAD_TIMEOUT" with
            | Some v => if truthy v then python_int v else Some DEFAULT_DOWNLOAD_TIMEOUT
            | None => Some DEFAULT_DOWNLOAD_TIMEOUT
            end); [left; by eexists | by right].
Qed.

(** X3: with a required variable missing or empty, a run of
    [vpn_automator.py] ends with exit code 1 and has started no process
    and written no file, whatever else is the case on the machine. *)
Theorem nothing_runs_without_configuration (w : world) (inputs : list input_event) :
  (exists k, k ∈ required_keys /\ blank (load_dotenv w) k) ->
  let out := entrypoint w (initial_state inputs) in
  st_launched (snd out) = [] /\ st_fs (snd out) = ∅ /\ exit_status (fst out) = 1.
Proof.
  intros (k & Hk & Hb) out. subst out. set (st := initial_state inputs).
  assert (exists e st', main w st = (Raise e, st') /\
            (e = SystemExit 1 \/ e = value_error) /\
            st_launched st' = [] /\ st_fs st' = ∅) as (e & st' & Hmain & He & Hl & Hfs).
  { unfold main. unfold bind at 1.
    destruct (check_python_dependencies_cases w st) as [-> | (st1 & -> & Hl & Hfs)];
      [| by eauto 8].
    unfold bind at 1.
    destruct (load_configuration_cases w st) as [[cfg Hload] | ->]; [| by eauto 8].
    rewrite Hload. unfold bind at 1.
    destruct (missing_keys_filter w cfg st st Hload) as [_ Hm].
    assert (k ∈ missing_keys cfg) as Hin
      by (rewrite Hm; by apply list_elem_of_filter).
    unfold sanity_check_config.
    destruct (missing_keys cfg) as [|m ms]; [by apply elem_of_nil in Hin |].
    by eauto 8. }
  unfold entrypoint. rewrite Hmain.
  destruct He as [-> | ->]; done.
Qed.

Lemma nothing_runs_without_configuration_witness :
  let out := entrypoint (vpn_world None proc_exited) (initial_state []) in
  let out' := entrypoint
                (mkWorld env_without_username ∅ "Linux" "posix" 1000 (fun _ => true)
                   (fun _ cmd => if String.eqb cmd "openvpn"
                                 then Some "/usr/sbin/openvpn" else None)
                   10 None (fun _ => []) (fun _ => true)
                   (fun prefix => "/tmp/" +:+ prefix +:+ "0") (Ret tt)
                   (Raise (PyException "WebDriverException" "no browser"))
                   (Raise (PyException "WebDriverException" "no browser"))
                   (fun _ => Ret proc_exited) (fun _ => Ret tt))
                (initial_state []) in
  length (st_launched (snd out)) = 1%nat /\
  st_launched (snd out') = [] /\ st_fs (snd out') = ∅ /\ exit_status (fst out') = 1.
Proof.
  intros out out'. split; [reflexivity |].
  apply nothing_runs_without_configuration.
  exists "VPN_USERNAME". split; [| reflexivity].
  do 2 apply list_elem_of_further. apply list_elem_of_here.
Defined.

(** *** The stand-alone connector *)

Lemma stable_open_browser (R : state -> state -> Prop) `{!Frame R} w url :
  stable R (ConnectVpnScript.open_browser w url).
Proof. unfold ConnectVpnScript.open_browser. quiet. Qed.

#[local] Hint Resolve stable_open_browser : quiet.

(** The part of [connect_vpn.py] between the writing of the credentials
    and their removal. *)
Lemma script_launch_restores_files (w : world) (command : list string)
    (url : string) (st0 st : state) (f : file) :
  st_fs st0 !! ConnectVpnScript.temp_creds_file_name = None ->
  st_fs st = <[ConnectVpnScript.temp_creds_file_name := f]> (st_fs st0) ->
  st_fs (snd
    ((print "Attempting to connect to VPN..." >>>
      try_finally
        (ConnectVpnScript.try_except_notfound
           (let* proc := popen w command in
            observe w (10 * w_hz w) >>>
            if p_poll_running proc then
              print "VPN connection initiated successfully." >>>
              ConnectVpnScript.open_browser w url
            else
              print "VPN connection failed. Please check your configuration and credentials.")
           (print "Error: OpenVPN command not found. Make sure OpenVPN is installed and in your system's PATH.")
           (fun msg => print ("An unexpected error occurred: " +:+ msg)))
        (let* there := own_file_exists ConnectVpnScript.temp_creds_file_name in
         if there then os_remove ConnectVpnScript.temp_creds_file_name else ret tt)) st))
  = st_fs st0.
Proof.
  intros Hnone Hfs. unfold bind at 1. unfold print at 1.
  match goal with
  | |- context [try_finally ?body ?cleanup ?s] =>
      assert (stable fs_unchanged body) as Hbody
        by (unfold ConnectVpnScript.try_except_notfound; quiet);
      specialize (Hbody s); unfold try_finally;
      destruct (body s) as [r st1]
  end.
  unfold fs_unchanged in Hbody. simpl in Hbody.
  unfold bind, own_file_exists.
  rewrite bool_decide_eq_true_2
    by (rewrite Hbody, Hfs, lookup_insert_eq; by eexists).
  unfold os_remove. rewrite Hbody, Hfs, lookup_insert_eq. simpl.
  by apply delete_insert_id.
Qed.



Lemma script_launch_returns (w : world) (command : list string) (url : string)
    (st : state) :
  w_sigint w = None ->
  ordinary (w_popen w command) ->
  ordinary (w_open_tab w url) ->
  is_Some (st_fs st !! ConnectVpnScript.temp_creds_file_name) ->
  fst
    ((print "Attempting to connect to VPN..." >>>
      try_finally
        (ConnectVpnScript.try_except_notfound
           (let* proc := popen w command in
            observe w (10 * w_hz w) >>>
            if p_poll_running proc then
              print "VPN connection initiated successfully." >>>
              ConnectVpnScript.open_browser w url
            else
              print "VPN connection failed. Please check your configuration and credentials.")
           (print "Error: OpenVPN command not found. Make sure OpenVPN is installed and in your system's PATH.")
           (fun msg => print ("An unexpected error occurred: " +:+ msg)))
        (let* there := own_file_exists ConnectVpnScript.temp_creds_file_name in
         if there then os_remove ConnectVpnScript.temp_creds_file_name else ret tt)) st)
  = Ret tt.
Proof.
  intros Hq Hp Ho [f Hf].
  assert (forall s : state, st_fs s = st_fs st ->
            fst ((let* there := own_file_exists ConnectVpnScript.temp_creds_file_name in
                  if there then os_remove ConnectVpnScript.temp_creds_file_name
                  else ret tt) s) = Ret tt) as Hclean.
  { intros s Hs. unfold bind, own_file_exists.
    rewrite bool_decide_eq_true_2 by (rewrite Hs; eauto).
    unfold os_remove. by rewrite Hs, Hf. }
  unfold bind at 1. unfold print at 1.
  match goal with
  | |- context [try_finally ?body ?cleanup ?s] =>
      assert (stable fs_unchanged body) as Hfs
        by (unfold ConnectVpnScript.try_except_notfound; quiet);
      specialize (Hfs s);
      assert (fst (body s) = Ret tt) as Hbody;
      [| unfold try_finally; destruct (body s) as [r st1]; simpl in Hbody, Hfs;
         subst r; specialize (Hclean st1 Hfs);
         destruct (cleanup st1) as [[[]|e] st2]; simpl in *; [done | discriminate]]
  end.
  unfold ConnectVpnScript.try_except_notfound, try_except, bind, popen.
  destruct (w_popen w command) as [proc|[c| |cls msg]]; simpl in Hp; try done.
  - rewrite observe_quiet by done.
    destruct (p_poll_running proc); [| done].
    unfold ConnectVpnScript.open_browser, try_except, bind, print, lift.
    destruct (w_open_tab w url) as [[]|[c| |cls msg]]; simpl in Ho; done.
  - by destruct (String.eqb cls "FileNotFoundError").
Qed.



(** *** What the watcher returns *)

Lemma stat_size_ret w p st sz st' :
  stat_size w p st = (Ret sz, st') ->
  exists n, lookup_size (path_name p) (w_listdir w n) = Some sz.
Proof.
  unfold stat_size. intros (n & st1 & _ & H)%bind_ret_inv.
  destruct (lookup_size _ _) as [z|] eqn:E; [| discriminate].
  unfold ret in H. injection H as <- _. eauto.
Qed.

Lemma passes_stability_size w p :
  passes_stability w p ->
  exists n size, lookup_size (path_name p) (w_listdir w n) = Some size /\ 0 < size.
Proof.
  intros (st & st' & size & Hs & Hpos). unfold sample_twice, try_except in Hs.
  destruct (bind (stat_size w p) _ st) as [[o|[c| |cls msg]] st1] eqn:E;
    try discriminate.
  injection Hs as -> ->.
  apply bind_ret_inv in E as (s1 & st2 & Hstat%stat_size_ret & E).
  apply bind_ret_inv in E as ([] & st3 & _ & E).
  apply bind_ret_inv in E as (s2 & st4 & _ & E).
  unfold ret in E. injection E as -> _ _.
  destruct Hstat as [n Hn]. eauto.
Qed.

Lemma endswith_app_l (pre s suf : string) :
  endswith s suf = true -> endswith (pre +:+ s) suf = true.
Proof.
  rewrite !endswith_spec. intros [p ->]. exists (pre +:+ p).
  by rewrite string_app_assoc.
Qed.

Lemma partial_name_path (exts : list string) (p : path) :
  partial_path exts p = false -> partial_name exts p = false.
Proof.
  unfold partial_path, partial_name, path_str.
  induction exts as [|e exts IH]; simpl; [done |].
  intros [H1 H2]%orb_false_iff. rewrite (IH H2), orb_false_r.
  destruct (endswith (path_name p) e) eqn:E; [| done].
  apply (endswith_app_l (path_dir p +:+ "/")) in E.
  rewrite string_app_assoc in E. congruence.
Qed.

Lemma scan_existing_sound w exts existing current st p st' :
  scan_existing w exts existing current st = (Ret (Some p), st') ->
  p ∈ current /\ path_name p ∈ existing /\ partial_name exts p = false /\
  exists n size, lookup_size (path_name p) (w_listdir w n) = Some size /\ 0 < size.
Proof.
  revert st. induction current as [|q current IH]; intros st; simpl.
  - unfold ret. discriminate.
  - assert (forall st0, scan_existing w exts existing current st0 = (Ret (Some p), st') ->
              p ∈ q :: current /\ path_name p ∈ existing /\ partial_name exts p = false /\
              exists n size, lookup_size (path_name p) (w_listdir w n) = Some size /\
                             0 < size) as IH'.
    { intros st0 H. destruct (IH st0 H) as (? & ? & ? & ?).
      split_and!; [by right | done ..]. }
    case_bool_decide as Hex; [| apply IH'].
    destruct (partial_name exts q) eqn:Hpq; simpl; [apply IH' |].
    intros (positive & st1 & Hstat & H)%bind_ret_inv.
    destruct positive; [| by eapply IH'].
    unfold ret in H. injection H as <- <-.
    unfold try_except in Hstat.
    destruct (bind (stat_size w q) _ st) as [[b|[c| |cls msg]] st2] eqn:E;
      try discriminate.
    injection Hstat as -> ->.
    apply bind_ret_inv in E as (sz & st3 & [n Hn]%stat_size_ret & E).
    unfold ret in E. injection E as Hpos _.
    apply Z.ltb_lt in Hpos.
    split_and!; [left | done | done | eauto].
Qed.

Lemma iterdir_ret w dir st l st' :
  iterdir w dir st = (Ret l, st') -> forall q, q ∈ l -> path_dir q = dir.
Proof.
  unfold iterdir. intros (n & st1 & _ & H)%bind_ret_inv.
  unfold ret in H. injection H as <- _.
  intros q Hq. apply list_elem_of_In, in_map_iff in Hq as (e & <- & _). done.
Qed.

Lemma poll_iteration_sound w dir exts existing st p st' :
  poll_iteration w dir exts existing st = (Ret (Some p), st') ->
  complete_file w dir exts p.
Proof.
  unfold poll_iteration.
  intros (current & st1 & Hdir & H)%bind_ret_inv.
  apply bind_ret_inv in H as (completed & st2 & Hscan & H).
  pose proof (iterdir_ret _ _ _ _ _ Hdir) as Hin.
  destruct completed as [|c0 completed'].
  - apply scan_existing_sound in H as (Hp & _ & Hpart & Hsize).
    split_and!; [by apply Hin | done | done].
  - apply bind_ret_inv in H as ([] & st3 & _ & H).
    apply bind_ret_inv in H as (keyed & st4 & Hkeys & H).
    destruct (sort_desc keyed) as [|[k q] rest] eqn:Hsort; [discriminate |].
    unfold ret in H. injection H as -> _.
    apply sort_desc_head in Hsort as [Hq _].
    apply sort_keys_paths in Hkeys.
    assert (p ∈ c0 :: completed') as Hp.
    { rewrite <- Hkeys. apply list_elem_of_fmap. by exists (k, p). }
    destruct (scan_new_sound _ _ _ _ _ _ _ Hscan p Hp)
      as [?%elem_of_nil | (Hnew & Hpart & Hstable)]; [done |].
    apply list_elem_of_filter in Hnew as [_ Hcur].
    split_and!; [by apply Hin | by apply partial_name_path |
                 by apply passes_stability_size].
Qed.

Lemma wait_loop_sound w dir exts existing start limit fuel st p st' :
  wait_loop w dir exts existing start limit fuel st = (Ret (Some p), st') ->
  complete_file w dir exts p.
Proof.
  revert st. induction fuel as [|fuel IH]; intros st; cbn [wait_loop];
    intros (t & st1 & _ & H)%bind_ret_inv;
    destruct (t - start <? limit);
    try (apply bind_ret_inv in H as (? & ? & _ & H); unfold ret in H; discriminate).
  apply bind_ret_inv in H as (found & st2 & Hpoll & H).
  destruct found as [q|].
  - unfold ret in H. injection H as -> _. by eapply poll_iteration_sound.
  - apply bind_ret_inv in H as ([] & st3 & _ & H). by eapply IH.
Qed.

(** X6: a file that [wait_for_download_completion] returns lies in the
    watched directory, has a name without partial-file suffix, and was
    seen in the directory with a size above zero. *)
Theorem returned_file_is_complete (w : world) (dir : string) (exts : list string)
    (timeout : Z) (st st' : state) (p : path) :
  wait_for_download_completion w dir exts timeout st = (Ret (Some p), st') ->
  path_dir p = dir /\ partial_name exts p = false /\
  exists n size, lookup_size (path_name p) (w_listdir w n) = Some size /\ 0 < size.
Proof.
  unfold wait_for_download_completion.
  intros (start & st1 & _ & H)%bind_ret_inv.
  apply bind_ret_inv in H as (listing & st2 & _ & H).
  apply bind_ret_inv in H as ([] & st3 & _ & H).
  by apply wait_loop_sound in H.
Qed.

Lemma returned_file_is_complete_witness :
  let w := watch_world (fun n => if (n <? 30)%nat
                                 then [("setup.exe.crdownload", Z.of_nat n)]
                                 else [("setup.exe", 900)]) in
  let p := mkPath "/tmp/dl" "setup.exe" in
  exists st',
    wait_for_download_completion w "/tmp/dl" default_partial_exts 120 (initial_state [])
    = (Ret (Some p), st') /\
    partial_name default_partial_exts p = false /\
    exists n size, lookup_size (path_name p) (w_listdir w n) = Some size /\ 0 < size.
Proof.
  intros w p.
  destruct (wait_for_download_completion w "/tmp/dl" default_partial_exts 120
              (initial_state [])) as [r st'] eqn:E.
  assert (r = Ret (Some p)) as -> by (revert E; vm_compute; congruence).
  exists st'. split; [reflexivity |].
  apply (returned_file_is_complete _ _ _ _ _ _ _ E).
Defined.

Lemma scan_new_all_partial w exts new acc st :
  (forall q, q ∈ new -> partial_path exts q = true) ->
  scan_new w exts new acc st = (Ret acc, st).
Proof.
  induction new as [|q new IH]; intros H; simpl; [done |].
  rewrite (H q) by left. apply IH. intros q' Hq'. apply H. by right.
Qed.

Lemma scan_existing_all_partial w exts existing current st :
  (forall q, q ∈ current -> partial_name exts q = true) ->
  scan_existing w exts existing current st = (Ret None, st).
Proof.
  induction current as [|q current IH]; intros H; [done |].
  cbn [scan_existing]. rewrite (H q) by left. cbn [negb].
  destruct (bool_decide _); apply IH; intros q' Hq'; apply H; by right.
Qed.

Lemma partial_name_true_path (exts : list string) (p : path) :
  partial_name exts p = true -> partial_path exts p = true.
Proof.
  intros H. destruct (partial_path exts p) eqn:E; [done |].
  apply partial_name_path in E. congruence.
Qed.

(** X7: as long as the directory holds nothing but entries with a
    partial-file suffix, the watcher returns no file: it ends with
    [None] when the time is up. *)
Theorem only_partial_files_time_out (w : world) (dir : string) (exts : list string)
    (timeout : Z) (st : state) :
  w_sigint w = None ->
  (forall n e, e ∈ w_listdir w n -> partial_name exts (mkPath dir (fst e)) = true) ->
  exists st', wait_for_download_completion w dir exts timeout st = (Ret None, st').
Proof.
  intros Hq Hpart.
  assert (forall n q, q ∈ map (fun e => mkPath dir (fst e)) (w_listdir w n) ->
            partial_name exts q = true) as Hall.
  { intros n q (e & <- & He)%list_elem_of_In%in_map_iff.
    apply (Hpart n). by apply list_elem_of_In. }
  assert (forall existing st0,
            poll_iteration w dir exts existing st0
            = (Ret None, set_step (st_step st0 + 1) st0)) as Hpoll.
  { intros existing st0. unfold poll_iteration. unfold bind at 1.
    rewrite iterdir_quiet by done. unfold bind at 1.
    rewrite scan_new_all_partial.
    - apply scan_existing_all_partial, Hall.
    - intros q [_ Hin]%list_elem_of_filter.
      apply partial_name_true_path. by eapply Hall. }
  assert (forall existing start limit fuel st0, exists st',
            wait_loop w dir exts existing start limit fuel st0 = (Ret None, st'))
    as Hloop.
  { intros existing start limit fuel.
    induction fuel as [|fuel IH]; intros st0; cbn [wait_loop];
      unfold bind at 1; rewrite time_now_quiet by done;
      destruct (_ <? limit); try (unfold bind, warn, print, ret; by eexists).
    unfold bind at 1. rewrite Hpoll.
    unfold bind at 1. unfold sleep_one. unfold bind at 1.
    rewrite observe_quiet by done. unfold ret at 1.
    apply IH. }
  unfold wait_for_download_completion. unfold bind at 1.
  rewrite time_now_quiet by done. unfold bind at 1.
  rewrite iterdir_quiet by done. unfold bind at 1. unfold info at 1, print at 1.
  apply Hloop.
Qed.

Lemma only_partial_files_time_out_witness :
  let w := watch_world (fun n => [("setup.exe.crdownload", Z.of_nat n);
                                  ("setup.exe.part", 7)]) in
  exists st',
    wait_for_download_completion w "/tmp/dl" default_partial_exts 3 (initial_state [])
    = (Ret None, st').
Proof.
  intros w. apply only_partial_files_time_out; [reflexivity |].
  intros n e He.
  apply elem_of_cons in He as [-> | He]; [reflexivity |].
  apply list_elem_of_singleton in He as ->. reflexivity.
Defined.

(** X8: with a timeout of zero or less the loop is not entered: the
    watcher takes the snapshot, reads the clock once more and returns
    [None], whatever the directory holds. *)
Theorem no_time_no_file (w : world) (dir : string) (exts : list string)
    (timeout : Z) (st : state) :
  w_sigint w = None ->
  timeout <= 0 ->
  exists st',
    wait_for_download_completion w dir exts timeout st = (Ret None, st') /\
    st_step st' = (st_step st + 3)%nat /\
    last (st_stdout st') = Some "[WARN] Timeout waiting for download completion.".
Proof.
  intros Hq Ht.
  unfold wait_for_download_completion. unfold bind at 1.
  rewrite time_now_quiet by done. unfold bind at 1.
  rewrite iterdir_quiet by done. unfold bind at 1. unfold info at 1, print at 1.
  assert (Z.to_nat (timeout * Z.of_nat (w_hz w)) = 0%nat) as -> by nia.
  cbn [wait_loop]. unfold bind at 1. rewrite time_now_quiet by done.
  cbn [st_step set_step].
  replace (_ <? _) with false by (symmetry; apply Z.ltb_ge; nia).
  unfold bind, warn, print, ret. eexists. split_and!; [reflexivity | simpl; lia |].
  simpl. by rewrite last_snoc.
Qed.

Lemma no_time_no_file_witness :
  let w := watch_world (fun _ => [("setup.exe", 900)]) in
  exists st',
    wait_for_download_completion w "/tmp/dl" default_partial_exts 0 (initial_state [])
    = (Ret None, st') /\ st_step st' = 3%nat.
Proof.
  intros w.
  destruct (no_time_no_file w "/tmp/dl" default_partial_exts 0 (initial_state []))
    as (st' & Hrun & Hstep & _); [reflexivity | lia |].
  exists st'. split; [exact Hrun | exact Hstep].
Defined.

(** *** A download that has ended *)

Section Still.
Context (w : world) (exts : list string) (entries : list (string * Z)) (since : nat).
Hypothesis Hquiet : w_sigint w = None.
Hypothesis Hstill : forall n, (since <= n)%nat -> w_listdir w n = entries.

Lemma sample_twice_still (q : path) (st : state) :
  (since <= st_step st)%nat ->
  exists st',
    sample_twice w q st =
    (Ret (match lookup_size (path_name q) entries with
          | Some size => Some (size, size)
          | None => None
          end), st') /\
    (since <= st_step st')%nat.
Proof.
  intros Hs. unfold sample_twice, try_except. unfold bind at 1.
  rewrite stat_size_quiet, Hstill by done.
  destruct (lookup_size (path_name q) entries) as [size|] eqn:E.
  - unfold bind at 1. unfold sleep_half. unfold bind at 1.
    rewrite observe_quiet by done. unfold ret at 1. unfold bind at 1.
    rewrite stat_size_quiet by done. cbn [st_step set_step].
    rewrite Hstill, E by lia. unfold ret. eexists. split; [reflexivity |].
    simpl. lia.
  - unfold ret. eexists. split; [reflexivity |]. simpl. lia.
Qed.

Lemma scan_new_still (new acc : list path) (st : state) :
  (since <= st_step st)%nat ->
  exists st',
    scan_new w exts new acc st
    = (Ret (acc ++ filter (fun q => settled exts entries q = true) new), st') /\
    (since <= st_step st')%nat.
Proof.
  revert acc st. induction new as [|q new IH]; intros acc st Hs.
  - simpl. rewrite filter_nil, app_nil_r. by eexists.
  - cbn [scan_new]. unfold settled at 1.
    destruct (partial_path exts q) eqn:Hp.
    + rewrite filter_cons_False by (unfold settled; rewrite Hp; simpl; congruence).
      by apply IH.
    + unfold bind at 1.
      destruct (sample_twice_still q st Hs) as (st1 & -> & Hs1).
      destruct (lookup_size (path_name q) entries) as [size|] eqn:E.
      * rewrite Z.eqb_refl. simpl.
        destruct (0 <? size) eqn:Hpos.
        -- rewrite filter_cons_True by (unfold settled; by rewrite Hp, E, Hpos).
           destruct (IH (acc ++ [q]) st1 Hs1) as (st2 & -> & Hs2).
           rewrite <- app_assoc. by eexists.
        -- rewrite filter_cons_False
             by (unfold settled; rewrite Hp, E, Hpos; simpl; congruence).
           by apply IH.
      * rewrite filter_cons_False
          by (unfold settled; rewrite Hp, E; simpl; congruence).
        by apply IH.
Qed.

Lemma sort_keys_still (ps : list path) (st : state) :
  (since <= st_step st)%nat ->
  (forall q, q ∈ ps -> settled exts entries q = true) ->
  exists keyed st',
    sort_keys w ps st = (Ret keyed, st') /\
    forall k q, (k, q) ∈ keyed <->
                q ∈ ps /\ lookup_size (path_name q) entries = Some k.
Proof.
  revert st. induction ps as [|p ps IH]; intros st Hs Hall.
  - exists [], st. split; [done |]. intros k q. split.
    + by intros ?%elem_of_nil.
    + by intros [?%elem_of_nil _].
  - cbn [sort_keys]. unfold bind at 1. rewrite stat_size_quiet, Hstill by done.
    pose proof (Hall p (list_elem_of_here _ _)) as Hp. unfold settled in Hp.
    apply andb_true_iff in Hp as [_ Hp].
    destruct (lookup_size (path_name p) entries) as [size|] eqn:E; [| discriminate].
    destruct (IH (set_step (st_step st + 1) st)) as (keyed & st' & Hrun & Hkeyed).
    { simpl. lia. }
    { intros q Hq. apply Hall. by right. }
    unfold bind at 1. rewrite Hrun. unfold ret.
    eexists _, _. split; [reflexivity |].
    intros k q. rewrite !elem_of_cons, Hkeyed. split.
    + intros [[= -> ->] | [? ?]]; auto.
    + intros [[-> | ?] Hk]; [left; congruence | right; done].
Qed.

End Still.

(** X9: once the directory no longer changes and holds a new file
    without partial-file suffix and with a size above zero, the next
    pass of the loop returns a file: a new one, and none that is smaller
    than that file. *)
Theorem finished_download_is_found (w : world) (dir : string) (exts : list string)
    (existing : gset string) (entries : list (string * Z)) (st : state)
    (name : string) (size : Z) :
  w_sigint w = None ->
  (forall n, (st_step st <= n)%nat -> w_listdir w n = entries) ->
  (name, size) ∈ entries ->
  lookup_size name entries = Some size ->
  name ∉ existing ->
  partial_path exts (mkPath dir name) = false ->
  0 < size ->
  exists p psize st',
    poll_iteration w dir exts existing st = (Ret (Some p), st') /\
    path_dir p = dir /\ (path_name p ∉ existing) /\
    lookup_size (path_name p) entries = Some psize /\ size <= psize.
Proof.
  intros Hq Hstill Hentry Hsize Hnew Hpart Hpos.
  unfold poll_iteration. unfold bind at 1.
  rewrite iterdir_quiet, Hstill by done.
  set (current := map (fun e => mkPath dir (fst e)) entries).
  set (new := filter (fun p => path_name p ∉ existing) current).
  destruct (scan_new_still w exts entries (st_step st) Hq Hstill new []
              (set_step (st_step st + 1) st)) as (st1 & Hscan & Hs1);
    [simpl; lia |].
  unfold bind at 1. rewrite Hscan.
  change ([] ++ filter (fun q => settled exts entries q = true) new)
    with (filter (fun q => settled exts entries q = true) new).
  clear Hscan.
  set (completed := filter (fun q => settled exts entries q = true) new) in *.
  assert (mkPath dir name ∈ completed) as Hmine.
  { apply list_elem_of_filter. split.
    - unfold settled. rewrite Hpart. simpl. rewrite Hsize. by apply Z.ltb_lt.
    - apply list_elem_of_filter. split; [done |].
      apply list_elem_of_In, in_map_iff. exists (name, size).
      split; [done | by apply list_elem_of_In]. }
  assert (forall q, q ∈ completed -> settled exts entries q = true) as Hall
    by (by intros q [Hq' _]%list_elem_of_filter).
  assert (forall q, q ∈ completed -> q ∈ new) as Hsub
    by (by intros q [_ Hq']%list_elem_of_filter).
  clearbody completed.
  destruct completed as [|c0 rest]; [by apply elem_of_nil in Hmine |].
  cbv beta iota.
  unfold bind at 1. unfold info at 1, print at 1.
  unfold bind at 1.
  match goal with
  | |- context [sort_keys w _ ?s] =>
      destruct (sort_keys_still w exts entries (st_step st) Hq Hstill (c0 :: rest) s)
        as (keyed & st2 & Hkeys & Hkeyed); [exact Hs1 | exact Hall |]
  end.
  rewrite Hkeys.
  assert ((size, mkPath dir name) ∈ keyed) as Hk by (by apply Hkeyed).
  destruct keyed as [|x keyed']; [by apply elem_of_nil in Hk |].
  destruct (sort_desc_nonempty x keyed') as ([k p] & rest' & Hsort).
  rewrite Hsort. apply sort_desc_head in Hsort as [Hin Hmax].
  apply Hkeyed in Hin as [Hp Hpk].
  apply Hsub in Hp.
  apply list_elem_of_filter in Hp as [Hpnew Hpcur].
  apply list_elem_of_In, in_map_iff in Hpcur as (e & <- & _).
  exists (mkPath dir (fst e)), k. eexists.
  split_and!; [reflexivity | done | done | done | by eapply Hmax].
Qed.

Lemma finished_download_is_found_witness :
  let w := watch_world (fun _ => [("pixel.gif", 40); ("setup.exe", 900);
                                  ("big.iso.part", 5000)]) in
  exists p psize st',
    poll_iteration w "/tmp/dl" default_partial_exts ∅ (initial_state [])
      = (Ret (Some p), st') /\
    path_dir p = "/tmp/dl" /\ (path_name p ∉ (∅ : gset string)) /\
    lookup_size (path_name p) [("pixel.gif", 40); ("setup.exe", 900);
                               ("big.iso.part", 5000)] = Some psize /\
    40 <= psize.
Proof.
  intros w.
  apply (finished_download_is_found w "/tmp/dl" default_partial_exts ∅ _
           (initial_state []) "pixel.gif" 40).
  - reflexivity.
  - intros n _. reflexivity.
  - apply list_elem_of_here.
  - reflexivity.
  - apply not_elem_of_empty.
  - reflexivity.
  - lia.
Defined.

(** *** The link that is chosen *)

Lemma first_suffix_key_in target_os hrefs k :
  first_suffix_key target_os hrefs = Some k -> k ∈ hrefs.
Proof.
  induction hrefs as [|x l IH]; simpl; [discriminate |].
  destruct (key_has_suffix target_os x).
  - intros [= ->]. left.
  - intros H. right. by apply IH.
Qed.

Lemma known_platform target_os href text :
  matches_suffix target_os href \/ matches_keyword target_os href text ->
  target_os = "windows" \/ target_os = "linux".
Proof.
  unfold matches_suffix, matches_keyword, suffixes, keywords.
  destruct (decide (target_os = "windows")); [by left |].
  destruct (decide (target_os = "linux")); [by right |].
  intros [(x & Hx%elem_of_nil & _) | (x & Hx%elem_of_nil & _)]; done.
Qed.



(** *** The URL taken from a click handler *)

Lemma take_unquoted_free (s : string) : free_of "'" (take_unquoted s) = true.
Proof.
  induction s as [|c s IH]; simpl; [done |].
  destruct (Ascii.eqb c "'") eqn:E; simpl; [done | by rewrite E].
Qed.

Lemma take_unquoted_prefix (s : string) : exists r, s = take_unquoted s +:+ r.
Proof.
  induction s as [|c s [r IH]]; simpl; [by exists "" |].
  destruct (Ascii.eqb c "'"); [by eexists |].
  exists r. change (String c s = String c (take_unquoted s +:+ r)). by rewrite <- IH.
Qed.

Lemma free_of_app (c : ascii) (a b : string) :
  free_of c (a +:+ b) = (free_of c a && free_of c b)%bool.
Proof.
  induction a as [|x a IH]; [done |].
  change (free_of c (String x (a +:+ b)) = (free_of c (String x a) && free_of c b)%bool).
  simpl. rewrite IH. by rewrite andb_assoc.
Qed.

Lemma startswith_drop (s p : string) :
  startswith s p = true -> s = p +:+ drop_chars (String.length p) s.
Proof.
  revert s. induction p as [|a p IH]; intros s; [done |].
  destruct s as [|b s]; simpl; [discriminate |].
  destruct (Ascii.eqb a b) eqn:E; [| discriminate].
  apply Ascii.eqb_eq in E as ->. intros H.
  change (String b s = String b (p +:+ drop_chars (String.length p) s)).
  by rewrite <- IH.
Qed.

Lemma match_url_here_spec (s u : string) :
  match_url_here s = Some u ->
  (startswith u "http://" = true \/ startswith u "https://" = true) /\
  free_of "'" u = true /\ exists r, s = u +:+ r.
Proof.
  unfold match_url_here.
  destruct (startswith s "https://") eqn:E1.
  - apply startswith_drop in E1. simpl String.length in E1.
    pose proof (take_unquoted_free (drop_chars 8 s)) as Hfree.
    destruct (take_unquoted_prefix (drop_chars 8 s)) as [r Hr].
    destruct (take_unquoted (drop_chars 8 s)) as [|c body] eqn:Eb; [discriminate |].
    intros [= <-]. split_and!; [by right | by rewrite free_of_app, Hfree |].
    exists r. by rewrite E1 at 1; rewrite Hr, string_app_assoc.
  - destruct (startswith s "http://") eqn:E2; [| discriminate].
    apply startswith_drop in E2. simpl String.length in E2.
    pose proof (take_unquoted_free (drop_chars 7 s)) as Hfree.
    destruct (take_unquoted_prefix (drop_chars 7 s)) as [r Hr].
    destruct (take_unquoted (drop_chars 7 s)) as [|c body] eqn:Eb; [discriminate |].
    intros [= <-]. split_and!; [by left | by rewrite free_of_app, Hfree |].
    exists r. by rewrite E2 at 1; rewrite Hr, string_app_assoc.
Qed.

Lemma re_search_url_spec (s u : string) :
  re_search_url s = Some u ->
  (startswith u "http://" = true \/ startswith u "https://" = true) /\
  free_of "'" u = true /\ py_in u s = true.
Proof.
  induction s as [|c s IH].
  - cbn [re_search_url]. destruct (match_url_here "") eqn:E; [| discriminate].
    intros [= ->]. apply match_url_here_spec in E as (H1 & H2 & r & Hr).
    split_and!; [done | done |]. apply py_in_spec. by exists "", r.
  - cbn [re_search_url]. destruct (match_url_here (String c s)) eqn:E.
    + intros [= ->]. apply match_url_here_spec in E as (H1 & H2 & r & Hr).
      split_and!; [done | done |]. apply py_in_spec. by exists "", r.
    + intros (H1 & H2 & H3)%IH. split_and!; [done | done |].
      change (py_in u (String c s)) with (startswith (String c s) u || py_in u s).
      by rewrite H3, orb_true_r.
Qed.

(** X11: an anchor with an href keeps it, whatever its click handler
    says.  For an anchor without href, a link is taken from the click
    handler only if it is an absolute http or https URL that stands in
    the handler text and holds no apostrophe. *)
Theorem href_from_click_handler (a : anchor) :
  (or_empty (a_href a) <> "" -> resolve_href a = or_empty (a_href a)) /\
  (or_empty (a_href a) = "" -> resolve_href a <> "" ->
   (startswith (resolve_href a) "http://" = true \/
    startswith (resolve_href a) "https://" = true) /\
   free_of "'" (resolve_href a) = true /\
   py_in (resolve_href a) (or_empty (a_onclick a)) = true).
Proof.
  unfold resolve_href. split.
  - intros H. apply truthy_true in H. by rewrite H.
  - intros H. rewrite H. simpl.
    destruct (py_in "http" (or_empty (a_onclick a))); [| done].
    destruct (re_search_url (or_empty (a_onclick a))) as [u|] eqn:E; [| done].
    intros _. by apply re_search_url_spec.
Qed.

Lemma href_from_click_handler_witness :
  let a := mkAnchor None (Some "Download")
                    (Some "window.open('https://x/setup.msi'); return false;") false in
  resolve_href a = "https://x/setup.msi" /\
  free_of "'" (resolve_href a) = true /\
  py_in (resolve_href a) (or_empty (a_onclick a)) = true.
Proof.
  intros a. split; [reflexivity |].
  destruct (href_from_click_handler a) as [_ H].
  destruct H as (_ & H2 & H3); [reflexivity | discriminate |].
  split; assumption.
Defined.

(** *** The confirmation of the operator *)

Lemma inputs_print line : keeps st_inputs (print line).
Proof. by intros st. Qed.

Lemma inputs_info msg : keeps st_inputs (info msg).
Proof. by intros st. Qed.

#[local] Hint Resolve inputs_print inputs_info : kept.

Lemma input_line (prompt : string) (st st' : state) (s : string) :
  input prompt st = (Ret s, st') -> st_inputs st = Line s :: st_inputs st'.
Proof.
  unfold input. destruct (st_inputs st) as [|[x| |] rest]; try discriminate.
  by intros [= <- <-].
Qed.

Lemma confirm_loop_ret (fuel : nat) (st st' : state) :
  confirm_loop fuel st = (Ret tt, st') ->
  exists pre s,
    st_inputs st = pre ++ Line s :: st_inputs st' /\
    py_lower (strip s) = "yes" /\
    forall e, e ∈ pre -> exists s', e = Line s' /\ py_lower (strip s') <> "yes".
Proof.
  revert st. induction fuel as [|fuel IH]; intros st; cbn [confirm_loop];
    intros (raw & st1 & Hin%input_line & H)%bind_ret_inv; cbv zeta in H;
    (destruct (String.eqb (py_lower (strip raw)) "yes") eqn:E;
     [ apply String.eqb_eq in E; unfold ret in H; injection H as <-;
       exists [], raw; split_and!; [done | done | by intros e ?%elem_of_nil]
     | apply String.eqb_neq in E;
       apply bind_ret_inv in H as ([] & st2 & Hp & H) ]).
  - discriminate.
  - apply IH in H as (pre & s & Hs & Hyes & Hpre).
    assert (st_inputs st2 = st_inputs st1) as Hsame
      by (destruct (bool_decide _); unfold print in Hp; by injection Hp as <-).
    exists (Line raw :: pre), s. split_and!; [| done |].
    + by rewrite Hin, <- Hsame, Hs.
    + intros e [-> | He]%elem_of_cons; [by exists raw | by apply Hpre].
Qed.



(** *** The browser *)

Lemma load_configuration_browser (w : world) (cfg : config) (st st' : state) :
  load_configuration w st = (Ret cfg, st') ->
  BROWSER cfg =
  let browser := py_lower (strip (getenv (load_dotenv w) "BROWSER" "")) in
  if truthy browser then Some browser else None.
Proof.
  unfold load_configuration.
  destruct (match load_dotenv w !! "DOWNLOAD_TIMEOUT" with
            | Some v => if truthy v then python_int v else Some DEFAULT_DOWNLOAD_TIMEOUT
            | None => Some DEFAULT_DOWNLOAD_TIMEOUT
            end); [| discriminate].
  unfold ret. by intros [= <- _].
Qed.





(** *** The credentials file of [vpn_automator.py] *)

Lemma split_on_app (c : ascii) (u rest : string) :
  free_of c u = true ->
  split_on c (u +:+ String c rest) = u :: split_on c rest.
Proof.
  induction u as [|x u IH]; intros H.
  - change ("" +:+ String c rest) with (String c rest). simpl.
    by rewrite Ascii.eqb_refl.
  - simpl in H. apply andb_true_iff in H as [Hx Hu].
    apply negb_true_iff in Hx.
    change (String x u +:+ String c rest) with (String x (u +:+ String c rest)).
    cbn [split_on]. rewrite Hx, (IH Hu). done.
Qed.

(** X15: [create_auth_file] writes a file of exactly two lines, the
    user name and the password, when these hold no line feed.  A chmod
    that fails with an ordinary exception is passed over; the mode is
    owner-only exactly when the system is posix and chmod worked. *)
Theorem credentials_file_has_two_lines (w : world) (username password : string)
    (st : state) :
  ordinary (w_chmod w) ->
  free_of (ascii_of_nat 10) username = true ->
  free_of (ascii_of_nat 10) password = true ->
  exists st' content,
    let authf := w_mkdtemp w "vpn_auth_" +:+ "/" +:+ "openvpn_auth.txt" in
    let mode :=
      if String.eqb (w_os_name w) "posix"
      then match w_chmod w with Ret _ => Some owner_only | Raise _ => None end
      else None in
    create_auth_file w username password st = (Ret authf, st') /\
    st_fs st' = <[authf := mkFile content mode]> (st_fs st) /\
    split_on (ascii_of_nat 10) content = [username; password; ""].
Proof.
  intros Hc Hu Hp.
  exists (snd (create_auth_file w username password st)),
         (username +:+ newline +:+ password +:+ newline).
  cbv zeta. split_and!.
  - unfold create_auth_file, try_except, bind, write_text, chmod, lift, ret.
    destruct (String.eqb (w_os_name w) "posix"); [| done].
    destruct (w_chmod w) as [[]|[c| |cls msg]]; simpl in Hc; done.
  - unfold create_auth_file, try_except, bind, write_text, chmod, lift, ret.
    destruct (String.eqb (w_os_name w) "posix"); [| done].
    destruct (w_chmod w) as [[]|[c| |cls msg]]; simpl in Hc; try done.
    simpl. apply map_eq. intros i.
    destruct (decide (i = w_mkdtemp w "vpn_auth_" +:+ "/" +:+ "openvpn_auth.txt"))
      as [-> | Hne].
    + by rewrite lookup_alter_eq, !lookup_insert_eq.
    + by rewrite lookup_alter_ne, !lookup_insert_ne.
  - change (username +:+ newline +:+ password +:+ newline)
      with (username +:+ String (ascii_of_nat 10)
              (password +:+ String (ascii_of_nat 10) "")).
    by rewrite !split_on_app.
Qed.

Lemma credentials_file_has_two_lines_witness :
  exists st' content,
    create_auth_file (quiet_world full_env) "alice" "s3cr3t pass" (initial_state [])
    = (Ret "/tmp/vpn_auth_0/openvpn_auth.txt", st') /\
    st_fs st' = {[ "/tmp/vpn_auth_0/openvpn_auth.txt" := mkFile content (Some owner_only) ]} /\
    split_on (ascii_of_nat 10) content = ["alice"; "s3cr3t pass"; ""].
Proof.
  destruct (credentials_file_has_two_lines (quiet_world full_env) "alice" "s3cr3t pass"
              (initial_state [])) as (st' & content & Hrun & Hfs & Hlines);
    [exact I | reflexivity | reflexivity |].
  exists st', content. split_and!; [exact Hrun | exact Hfs | exact Hlines].
Defined.

Lemma auth_file_is_never_removed_witness :
  let cfg := mkConfig "http://x/dl" "client.ovpn" "alice" "secret" None 120 in
  exists st' mode,
    connect_vpn (vpn_world None proc_interrupted) cfg (initial_state []) = (Ret tt, st') /\
    st_fs st' !! "/tmp/vpn_auth_0/openvpn_auth.txt" =
    Some (mkFile ("alice" +:+ newline +:+ "secret" +:+ newline) mode).
Proof.
  intros cfg.
  destruct (connect_vpn (vpn_world None proc_interrupted) cfg (initial_state []))
    as [r st'] eqn:E.
  assert (r = Ret tt) as -> by (revert E; vm_compute; congruence).
  destruct (auth_file_is_never_removed _ _ _ _ E) as [mode Hmode].
  exists st', mode. split; [reflexivity | exact Hmode].
Defined.

(** *** The WireGuard flow *)

Lemma run_command_cases (w : world) (run : WireGuard.runner) (cmd : list string)
    (shell : bool) (st : state) :
  let out := WireGuard.run_command w run cmd shell st in
  (st_launched (snd out) = st_launched st /\ exists e, fst out = Raise e) \/
  (st_launched (snd out) = st_launched st ++ [cmd] /\
   exists n c, WireGuard.run_code run n cmd = Ret c /\
               fst out = if c =? 0 then Ret tt else Raise (SystemExit 1)).
Proof.
  unfold WireGuard.run_command, info, print, bind, observe. simpl.
  destruct (w_sigint w) as [t|].
  - destruct (_ && _)%bool; simpl; [left; eauto |].
    destruct (WireGuard.run_code run (st_step st) cmd) as [c|e] eqn:Hrun; simpl.
    + right. split; [by destruct (c =? 0) |].
      exists (st_step st), c. split; [done | by destruct (c =? 0)].
    + left. eauto.
  - destruct (WireGuard.run_code run (st_step st) cmd) as [c|e] eqn:Hrun; simpl.
    + right. split; [by destruct (c =? 0) |].
      exists (st_step st), c. split; [done | by destruct (c =? 0)].
    + left. eauto.
Qed.



(** X18: [install_wireguard_linux] starts nothing but its package
    commands, in order: [apt-get install] only after an [apt-get update]
    that returned 0, and [dnf install] only when [apt-get] was not
    found.  It returns only after the install command returned 0. *)
Theorem apt_update_precedes_install (w : world) (run : WireGuard.runner) (st : state) :
  let out := WireGuard.install_wireguard_linux w run st in
  exists started,
    st_launched (snd out) = st_launched st ++ started /\
    (started = [] \/ started = [apt_update] \/ started = [apt_update; apt_install] \/
     started = [dnf_install]) /\
    (apt_install ∈ started -> exists n, WireGuard.run_code run n apt_update = Ret 0) /\
    (dnf_install ∈ started -> exists n, falsy_opt (w_which w n "apt-get") = true) /\
    (fst out = Ret tt ->
     exists n, WireGuard.run_code run n (List.last started []) = Ret 0 /\
               (started = [apt_update; apt_install] \/ started = [dnf_install])).
Proof.
  cbv zeta.
  destruct (WireGuard.install_wireguard_linux w run st) as [r s'] eqn:Hrun.
  cbn [fst snd]. revert Hrun.
  assert (forall s1, st_launched s1 = st_launched st ->
            exists started : list (list string),
              st_launched s1 = st_launched st ++ started /\
              (started = [] \/ started = [apt_update] \/
               started = [apt_update; apt_install] \/ started = [dnf_install]) /\
              (apt_install ∈ started ->
               exists n, WireGuard.run_code run n apt_update = Ret 0) /\
              (dnf_install ∈ started ->
               exists n, falsy_opt (w_which w n "apt-get") = true)) as Hnone.
  { intros s1 H1. exists []. rewrite app_nil_r.
    split_and!; [done | by left | by intros ?%elem_of_nil | by intros ?%elem_of_nil]. }
  unfold WireGuard.install_wireguard_linux.
  unfold bind at 1.
  pose proof (launched_find_executable w "apt-get" st) as Kapt.
  destruct (find_executable w "apt-get" st) as [[apt|e] s1] eqn:Hapt; simpl in Kapt.
  2: { intros [= <- <-]. destruct (Hnone s1 Kapt) as (started & ? & ? & ? & ?).
       exists started. by split_and!. }
  destruct (falsy_opt apt) eqn:Fapt; cbn [negb].
  - (* dnf *)
    assert (exists n, falsy_opt (w_which w n "apt-get") = true) as Hno.
    { apply find_executable_ret in Hapt as (n & ->). eauto. }
    unfold bind at 1.
    pose proof (launched_find_executable w "dnf" s1) as Kdnf.
    destruct (find_executable w "dnf" s1) as [[dnf|e] s2] eqn:Hdnf; simpl in Kdnf.
    2: { intros [= <- <-].
         destruct (Hnone s2 ltac:(congruence)) as (started & ? & ? & ? & ?).
         exists started. by split_and!. }
    destruct (falsy_opt dnf); cbn [negb].
    + intros [= <- <-].
      destruct (Hnone s2 ltac:(congruence)) as (started & ? & ? & ? & ?).
      exists started. by split_and!.
    + fold dnf_install.
      destruct (run_command_cases w run dnf_install false s2)
        as [[HL [e He]] | [HL (n & c & Hc & Hres)]];
        intros Hrun; rewrite Hrun in HL, He || rewrite Hrun in HL, Hres;
        cbn [fst snd] in *.
      * subst r. destruct (Hnone s' ltac:(congruence)) as (started & ? & ? & ? & ?).
        exists started. by split_and!.
      * exists [dnf_install].
        split_and!; [congruence | by right; right; right | | done |].
        -- intros [=]%list_elem_of_singleton.
        -- rewrite Hres. destruct (c =? 0) eqn:Hz; [| done].
           apply Z.eqb_eq in Hz as ->. intros _. exists n. split; [done | by right].
  - (* apt-get *)
    fold apt_update apt_install. unfold bind.
    destruct (run_command_cases w run apt_update false s1)
      as [[HL [e He]] | [HL (n & c & Hc & Hres)]];
      destruct (WireGuard.run_command w run apt_update false s1) as [r1 s2];
      cbn [fst snd] in *; subst r1.
    + intros [= <- <-]. destruct (Hnone s2 ltac:(congruence)) as (started & ? & ? & ? & ?).
      exists started. by split_and!.
    + destruct (c =? 0) eqn:Hz.
      2: { intros [= <- <-]. exists [apt_update].
           split_and!; [congruence | by right; left | | | done].
           - intros [=]%list_elem_of_singleton.
           - intros [=]%list_elem_of_singleton. }
      apply Z.eqb_eq in Hz as ->.
      destruct (run_command_cases w run apt_install false s2)
        as [[HL2 [e He]] | [HL2 (n2 & c2 & Hc2 & Hres2)]];
        intros Hrun; rewrite Hrun in HL2, He || rewrite Hrun in HL2, Hres2;
        cbn [fst snd] in *.
      * subst r. exists [apt_update].
        split_and!; [congruence | by right; left | by intros _; exists n | | done].
        intros [=]%list_elem_of_singleton.
      * exists [apt_update; apt_install].
        split_and!; [ | by right; right; left | by intros _; exists n | |].
        -- rewrite HL2, HL, Kapt, <- app_assoc. done.
        -- intros [[=] | [=]%list_elem_of_singleton]%elem_of_cons.
        -- rewrite Hres2. destruct (c2 =? 0) eqn:Hz2; [| done].
           apply Z.eqb_eq in Hz2 as ->. intros _. exists n2. split; [done | by left].
Qed.

Lemma startswith_linux_not_win (s : string) :
  startswith s "linux" = true \/ startswith s "darwin" = true ->
  startswith s "win" = false.
Proof.
  destruct s as [|c s]; [by intros [|] |].
  cbn [startswith].
  intros [H | H].
  - destruct (Ascii.eqb "l" c) eqn:E; [| done].
    apply Ascii.eqb_eq in E as <-. done.
  - destruct (Ascii.eqb "d" c) eqn:E; [| done].
    apply Ascii.eqb_eq in E as <-. done.
Qed.



Section StartsOnly.
Context (cmds : list (list string)).

Lemma starts_only_keeps {A} (m : M A) : keeps st_launched m -> starts_only cmds m.
Proof.
  intros H st. exists []. rewrite app_nil_r. split; [apply H |].
  by intros c ?%elem_of_nil.
Qed.

Lemma starts_only_bind {A B} (m : M A) (k : A -> M B) :
  starts_only cmds m -> (forall a, starts_only cmds (k a)) ->
  starts_only cmds (bind m k).
Proof.
  intros Hm Hk st. unfold bind.
  destruct (Hm st) as (l1 & E1 & H1).
  destruct (m st) as [[a|e] s1]; cbn [fst snd] in *; [| by exists l1].
  destruct (Hk a s1) as (l2 & E2 & H2).
  exists (l1 ++ l2). split; [by rewrite E2, E1, app_assoc |].
  intros c [?|?]%elem_of_app; auto.
Qed.

Lemma starts_only_run_command w run cmd shell :
  cmd ∈ cmds -> starts_only cmds (WireGuard.run_command w run cmd shell).
Proof.
  intros Hin st.
  destruct (run_command_cases w run cmd shell st) as [[HL _] | [HL _]].
  - exists []. rewrite app_nil_r. split; [done | by intros c ?%elem_of_nil].
  - exists [cmd]. split; [done |]. by intros c ->%list_elem_of_singleton.
Qed.

End StartsOnly.

Lemma install_wireguard_starts w run :
  starts_only package_commands (WireGuard.install_wireguard w run).
Proof.
  assert (forall A msg, starts_only package_commands (@fatal A msg)) as Hfatal.
  { intros A msg. apply starts_only_keeps, launched_fatal. }
  assert (forall name, starts_only package_commands (find_executable w name)) as Hfind.
  { intros name. apply starts_only_keeps, launched_find_executable. }
  unfold WireGuard.install_wireguard.
  destruct (startswith _ "linux").
  { unfold WireGuard.install_wireguard_linux.
    apply starts_only_bind; [apply Hfind |]. intros apt.
    destruct (negb (falsy_opt apt)).
    - apply starts_only_bind; [| intros _];
        apply starts_only_run_command; unfold package_commands;
        rewrite !elem_of_cons; auto.
    - apply starts_only_bind; [apply Hfind |]. intros dnf.
      destruct (negb (falsy_opt dnf)); [| apply Hfatal].
      apply starts_only_run_command; unfold package_commands;
        rewrite !elem_of_cons; auto. }
  destruct (startswith _ "win").
  { unfold WireGuard.install_wireguard_windows.
    apply starts_only_bind; [apply Hfind |]. intros winget.
    destruct (negb (falsy_opt winget)).
    - apply starts_only_run_command; unfold package_commands;
        rewrite !elem_of_cons; auto 10.
    - apply starts_only_bind; [apply Hfind |]. intros choco.
      destruct (negb (falsy_opt choco)); [| apply Hfatal].
      apply starts_only_run_command; unfold package_commands;
        rewrite !elem_of_cons; auto 10. }
  destruct (startswith _ "darwin"); [| apply Hfatal].
  apply starts_only_keeps, launched_warn.
Qed.

Lemma which_first_absent (w : world) (names : list string) (st : state) :
  (forall n name, name ∈ names -> falsy_opt (w_which w n name) = true) ->
  let out := WireGuard.which_first w names st in
  st_launched (snd out) = st_launched st /\
  forall p, fst out = Ret p -> falsy_opt p = true.
Proof.
  revert st. induction names as [|name rest IH]; intros st Habs;
    [cbn; split; [done | by intros p [= <-]] |].
  assert (forall s,
            st_launched (snd (find_executable w name s)) = st_launched s /\
            forall p, fst (find_executable w name s) = Ret p -> falsy_opt p = true)
    as Hone.
  { intros s. split; [apply launched_find_executable |].
    intros p Hp. destruct (find_executable w name s) as [r s1] eqn:E.
    simpl in Hp. subst r. apply find_executable_ret in E as [n ->].
    apply Habs. by left. }
  destruct rest as [|name' rest]; [apply Hone |].
  change (WireGuard.which_first w (name :: name' :: rest))
    with (let* p := find_executable w name in
          if negb (falsy_opt p) then ret p
          else WireGuard.which_first w (name' :: rest)).
  cbv zeta. unfold bind.
  destruct (Hone st) as [HL Hp].
  destruct (find_executable w name st) as [[p|e] s1]; cbn [fst snd] in *; [| done].
  rewrite (Hp p eq_refl). cbn [negb].
  destruct (IH s1) as [HL' Hp']; [intros n nm ?; apply Habs; by right |].
  split; [congruence | done].
Qed.

Lemma check_wireguard_absent (w : world) (st : state) :
  (forall n name, name ∈ wireguard_binaries -> falsy_opt (w_which w n name) = true) ->
  let out := WireGuard.check_wireguard_present w st in
  st_launched (snd out) = st_launched st /\
  forall p, fst out = Ret p -> falsy_opt p = true.
Proof.
  intros Habs. unfold WireGuard.check_wireguard_present.
  destruct (startswith _ "win"); apply which_first_absent;
    intros n name Hin; apply Habs; unfold wireguard_binaries;
    set_solver.
Qed.

(** X20: as long as none of the WireGuard programs is found, a run of
    [vpn_automator_wireguard.py] never gets to the connection: it ends
    by raising (a [fatal] exit, an interrupt, the error of a command),
    and every command it has started is one of the package-manager
    commands of the installation stage. *)
Theorem never_connects_without_wireguard (w : world) (run : WireGuard.runner)
    (inputs : list input_event) :
  (forall n name, name ∈ wireguard_binaries -> falsy_opt (w_which w n name) = true) ->
  let out := WireGuard.entrypoint w run (initial_state inputs) in
  (exists e, fst out = Raise e) /\
  forall cmd, cmd ∈ st_launched (snd out) -> cmd ∈ package_commands.
Proof.
  intros Habs.
  assert (forall st,
            (exists e, fst (WireGuard.main w run st) = Raise e) /\
            exists started,
              st_launched (snd (WireGuard.main w run st)) = st_launched st ++ started /\
              forall c, c ∈ started -> c ∈ package_commands) as Hmain.
  { intros st.
    assert (exists started : list (list string),
              st_launched st = st_launched st ++ started /\
              forall c, c ∈ started -> c ∈ package_commands) as Hnil.
    { exists []. rewrite app_nil_r. split; [done | by intros c ?%elem_of_nil]. }
    destruct (WireGuard.main w run st) as [r s'] eqn:Hrun. cbn [fst snd].
    revert Hrun. unfold WireGuard.main, WireGuard.load_configuration.
    unfold bind at 1. unfold ret at 1.
    unfold bind at 1. unfold WireGuard.sanity_check_config.
    destruct (truthy _); [| intros [= <- <-]; split; [eauto | exact Hnil]].
    unfold ret at 1.
    unfold bind at 1.
    destruct (check_wireguard_absent w st Habs) as [HL1 Hp1].
    destruct (WireGuard.check_wireguard_present w st) as [[p|e] s1];
      cbn [fst snd] in *;
      [| intros [= <- <-]; split; [eauto | by rewrite HL1]].
    rewrite (Hp1 p eq_refl).
    unfold bind at 1. unfold bind at 1. unfold bind at 1.
    unfold info at 1, print at 1.
    match goal with
    | |- context [WireGuard.install_wireguard w run ?s] =>
        destruct (install_wireguard_starts w run s) as (started & HL2 & Hin);
        destruct (WireGuard.install_wireguard w run s) as [[[]|e] s2]
    end; cbn [fst snd st_launched] in *;
      [| intros [= <- <-]; split; [eauto | exists started; split; [congruence | done]]].
    unfold bind at 1.
    destruct (check_wireguard_absent w s2 Habs) as [HL3 Hp3].
    destruct (WireGuard.check_wireguard_present w s2) as [[p'|e] s3];
      cbn [fst snd] in *;
      [| intros [= <- <-]; split; [eauto | exists started; split; [congruence | done]]].
    rewrite (Hp3 p' eq_refl).
    intros [= <- <-]. split; [eauto |].
    exists started. split; [cbn; congruence | done]. }
  cbv zeta. unfold WireGuard.entrypoint.
  destruct (Hmain (initial_state inputs)) as ([e He] & started & HL & Hin).
  destruct (WireGuard.main w run (initial_state inputs)) as [r s'].
  cbn [fst snd] in *. subst r. cbn [initial_state st_launched app] in HL.
  destruct e as [c| |cls msg]; cbn [fst snd]; (split; [eauto |]).
  - by rewrite HL.
  - cbn. by rewrite HL.
  - by rewrite HL.
Qed.

Lemma never_connects_without_wireguard_witness :
  let out := WireGuard.entrypoint (wg_world "Linux" ["apt-get"]) runner_ok
               (initial_state []) in
  (exists e, fst out = Raise e) /\
  forall cmd, cmd ∈ st_launched (snd out) -> cmd ∈ package_commands.
Proof.
  apply (never_connects_without_wireguard (wg_world "Linux" ["apt-get"]) runner_ok []).
  intros n name Hin. unfold wireguard_binaries in Hin.
  repeat (apply elem_of_cons in Hin as [-> | Hin]; [reflexivity |]).
  by apply elem_of_nil in Hin.
Defined.

Lemma startswith_darwin (s : string) :
  startswith s "darwin" = true ->
  startswith s "linux" = false /\ startswith s "win" = false.
Proof.
  destruct s as [|c s]; [done |].
  cbn [startswith].
  destruct (Ascii.eqb "d" c) eqn:E; [| done].
  apply Ascii.eqb_eq in E as <-. done.
Qed.



(** *** No process without openvpn *)

Lemma launched_time_now w : keeps st_launched (time_now w).
Proof. unfold time_now. kept. Qed.

Lemma launched_sleep_half w : keeps st_launched (sleep_half w).
Proof. unfold sleep_half. kept. Qed.

Lemma launched_sleep_one w : keeps st_launched (sleep_one w).
Proof. unfold sleep_one. kept. Qed.

Lemma launched_iterdir w dir : keeps st_launched (iterdir w dir).
Proof. unfold iterdir. kept. Qed.

Lemma launched_stat_size w p : keeps st_launched (stat_size w p).
Proof. unfold stat_size. kept. Qed.

#[local] Hint Resolve launched_time_now launched_sleep_half launched_sleep_one
  launched_iterdir launched_stat_size : kept.

Lemma launched_sample_twice w p : keeps st_launched (sample_twice w p).
Proof. unfold sample_twice. kept. Qed.

#[local] Hint Resolve launched_sample_twice : kept.

Lemma launched_scan_new w exts new acc : keeps st_launched (scan_new w exts new acc).
Proof. revert acc. induction new as [|p new IH]; intros acc; simpl; kept. Qed.

Lemma launched_sort_keys w ps : keeps st_launched (sort_keys w ps).
Proof. induction ps as [|p ps IH]; simpl; kept. Qed.

Lemma launched_scan_existing w exts existing current :
  keeps st_launched (scan_existing w exts existing current).
Proof. induction current as [|p l IH]; simpl; kept. Qed.

#[local] Hint Resolve launched_scan_new launched_sort_keys launched_scan_existing : kept.

Lemma launched_poll_iteration w dir exts existing :
  keeps st_launched (poll_iteration w dir exts existing).
Proof. unfold poll_iteration. kept. Qed.

#[local] Hint Resolve launched_poll_iteration : kept.

Lemma launched_wait_loop w dir exts existing start limit fuel :
  keeps st_launched (wait_loop w dir exts existing start limit fuel).
Proof. induction fuel as [|fuel IH]; simpl; kept. Qed.

#[local] Hint Resolve launched_wait_loop : kept.

Lemma launched_wait_for_download_completion w dir exts timeout :
  keeps st_launched (wait_for_download_completion w dir exts timeout).
Proof. unfold wait_for_download_completion. kept. Qed.

Lemma launched_find_and_click_download d url target_os :
  keeps st_launched (find_and_click_download d url target_os).
Proof. unfold find_and_click_download, activate_suffix, activate_fallback. kept. Qed.

Lemma launched_choose_browser_preference b :
  keeps st_launched (choose_browser_preference b).
Proof. unfold choose_browser_preference. kept. Qed.

Lemma launched_prepare_webdriver w dir prefer :
  keeps st_launched (prepare_webdriver w dir prefer).
Proof. unfold prepare_webdriver. kept. Qed.

Lemma launched_driver_quit w d : keeps st_launched (driver_quit w d).
Proof. unfold driver_quit. kept. Qed.

#[local] Hint Resolve launched_wait_for_download_completion
  launched_find_and_click_download launched_choose_browser_preference
  launched_prepare_webdriver launched_driver_quit : kept.

Lemma launched_download_installer w cfg : keeps st_launched (download_installer w cfg).
Proof. unfold download_installer. kept. Qed.

Lemma launched_confirm_loop fuel : keeps st_launched (confirm_loop fuel).
Proof. induction fuel as [|fuel IH]; simpl; kept. Qed.

Lemma launched_ask_user_to_run_installer w p :
  keeps st_launched (ask_user_to_run_installer w p).
Proof.
  unfold ask_user_to_run_installer. kept.
  intros st. apply launched_confirm_loop.
Qed.

#[local] Hint Resolve launched_download_installer launched_ask_user_to_run_installer
  : kept.

Lemma stops_short_bind {A B} (m : M A) (k : A -> M B) :
  keeps st_launched m -> stable fs_unchanged m -> (forall a, stops_short (k a)) ->
  stops_short (bind m k).
Proof.
  intros Hl Hfs Hk st. unfold bind.
  specialize (Hl st). specialize (Hfs st). unfold fs_unchanged in Hfs.
  destruct (m st) as [[a|e] s1]; cbn [fst snd] in *; [| by eauto].
  destruct (Hk a s1) as (He & Hl' & Hfs').
  split_and!; [done | congruence | congruence].
Qed.

Section WithoutOpenvpn.
Context (w : world).
Hypothesis absent :
  forall n cmd, cmd = "openvpn.exe" \/ cmd = "openvpn" -> w_which w n cmd = None.

Lemma connection_step_stops (cfg : config) :
  stops_short
    (try_except (connect_vpn w cfg)
       (fun _ msg => fatal ("Connection step failed: " +:+ msg))).
Proof.
  intros st.
  assert ((exists e, fst (connect_vpn w cfg st) = Raise e) /\
          st_launched (snd (connect_vpn w cfg st)) = st_launched st /\
          st_fs (snd (connect_vpn w cfg st)) = st_fs st) as (He & Hl & Hfs).
  { pose proof (stable_check_openvpn_present fs_unchanged w st) as Hfs.
    pose proof (launched_check_openvpn_present w st) as Hl.
    unfold fs_unchanged in Hfs.
    destruct (connect_vpn w cfg st) as [r s'] eqn:Hrun. cbn [fst snd].
    revert Hrun. unfold connect_vpn. unfold bind at 1.
    destruct (check_openvpn_present w st) as [[[x|]|e] s1] eqn:E;
      cbn [fst snd] in *.
    - apply check_openvpn_present_found in E as (n & c & E & Hc).
      rewrite absent in E by (destruct Hc; auto). done.
    - unfold bind at 1. cbn. intros [= <- <-]. by eauto.
    - intros [= <- <-]. by eauto. }
  unfold try_except.
  destruct (connect_vpn w cfg st) as [r s1]; cbn [fst snd] in *.
  destruct He as [e ->].
  destruct e as [c| |cls msg]; cbn; eauto.
Qed.

Lemma main_stops : stops_short (main w).
Proof.
  unfold main.
  apply stops_short_bind; [kept | unfold check_python_dependencies; quiet |].
  intros _.
  apply stops_short_bind; [kept | quiet |]. intros cfg.
  apply stops_short_bind; [kept | unfold sanity_check_config; quiet |]. intros _.
  apply stops_short_bind; [kept | quiet |]. intros present.
  apply stops_short_bind; [| | intros _; apply connection_step_stops].
  - kept.
  - unfold download_installer, prepare_webdriver. quiet.
Qed.

End WithoutOpenvpn.



(** *** The download stage as a whole *)

Lemma try_finally_ret_inv {A} (body : M A) (cleanup : M unit) (st st' : state) (a : A) :
  try_finally body cleanup st = (Ret a, st') ->
  exists st1, body st = (Ret a, st1) /\ cleanup st1 = (Ret tt, st').
Proof.
  unfold try_finally. destruct (body st) as [r st1].
  destruct (cleanup st1) as [[[]|e] st2] eqn:E; [| discriminate].
  intros [= -> ->]. by exists st1.
Qed.

Lemma driver_quit_ret w d st st' :
  driver_quit w d st = (Ret tt, st') -> exists n, d_quit d n = Ret tt.
Proof.
  unfold driver_quit. intros (n & st1 & _ & H)%bind_ret_inv.
  unfold lift in H. injection H as H _. eauto.
Qed.


